(** * Notas-API: the in-memory note collection of [main.py]

    A shallow embedding of the request handlers of [main.py] (FastAPI
    application "API de Notas") and the properties of the note collection
    [notas_db] that its specification states.

    - Python [str] values are [string]s (the UTF-8 bytes of the text; equality
      and the substring test [in] agree on both views).  [str.lower] and
      [str.strip] belong to the Python runtime, not to the repository: they are
      the operations of the class [Texto], and every general theorem holds for
      all its instances.  [TextoASCII] implements them for ASCII text, so that
      handlers run on concrete requests.
    - [datetime] values are integers ([Z]), ordered as time is; the reading of
      [datetime.now()] is an argument of the handlers that take one.
    - The global list [notas_db] is the state of the monad [M]; [raise] of an
      exception leaves the state as it is at that point, as in Python. *)

From stdpp Require Import base decidable option list gmap strings.
From Stdlib Require Import ZArith Ascii Lia.

Open Scope Z_scope.

(** ** Text operations of the Python runtime *)

Class Texto := {
  lower : string → string;
  strip : string → string;
  lower_empty : lower "" = "";
}.

Module ASCII.

(** [str.lower] on ASCII: the letters A-Z move to a-z. *)
Definition lower_char (c : ascii) : ascii :=
  let n := N_of_ascii c in
  if ((65 <=? n) && (n <=? 90))%N then ascii_of_N (n + 32) else c.

Fixpoint lower (s : string) : string :=
  match s with
  | EmptyString => EmptyString
  | String c r => String (lower_char c) (lower r)
  end.

(** [str.isspace] on ASCII: TAB, LF, VT, FF, CR, FS, GS, RS, US, SPACE. *)
Definition isspace (c : ascii) : bool :=
  let n := N_of_ascii c in
  (((9 <=? n) && (n <=? 13)) || ((28 <=? n) && (n <=? 32)))%N.

Fixpoint lstrip (s : string) : string :=
  match s with
  | EmptyString => EmptyString
  | String c r => if isspace c then lstrip r else s
  end.

Fixpoint rstrip (s : string) : string :=
  match s with
  | EmptyString => EmptyString
  | String c r =>
      match rstrip r with
      | EmptyString => if isspace c then EmptyString else String c EmptyString
      | r' => String c r'
      end
  end.

Definition strip (s : string) : string := rstrip (lstrip s).

End ASCII.

#[export] Instance TextoASCII : Texto :=
  {| lower := ASCII.lower; strip := ASCII.strip; lower_empty := eq_refl |}.

(** [needle in hay] on Python strings. *)
Fixpoint contiene (needle hay : string) : bool :=
  Stdlib.Strings.String.prefix needle hay ||
  match hay with
  | EmptyString => false
  | String _ r => contiene needle r
  end.

(** [a] occurs in [b] as a run of consecutive characters. *)
Definition es_subcadena (a b : string) : Prop :=
  ∃ pre post, b = pre +:+ a +:+ post.

(** ** Data model (lines 12-27) *)

Record NotaBase := {
  titulo : string;
  contenido : string;
  autor : string;
  categoria : option string;   (* Optional[str] = "General" *)
  importante : option bool;    (* Optional[bool] = False *)
}.

(** [class NotaCreate(NotaBase): pass] *)
Definition NotaCreate : Type := NotaBase.

(** [class Nota(NotaBase)]: the base fields and the two timestamps. *)
Record Nota := {
  base :> NotaBase;
  fecha_creacion : Z;
  fecha_actualizacion : Z;
}.

(** The constructor call [Nota(titulo=b.titulo, contenido=b.contenido,
    autor=b.autor, categoria=b.categoria, importante=b.importante,
    fecha_creacion=creacion, fecha_actualizacion=actualizacion)]. *)
Definition construir_Nota (b : NotaBase) (creacion actualizacion : Z) : Nota :=
  {| base := {| titulo := titulo b; contenido := contenido b;
                autor := autor b; categoria := categoria b;
                importante := importante b |};
     fecha_creacion := creacion;
     fecha_actualizacion := actualizacion |}.

(** A request body that leaves [categoria] and [importante] out. *)
Definition nota_por_defecto (t c a : string) : NotaCreate :=
  {| titulo := t; contenido := c; autor := a;
     categoria := Some "General"; importante := Some false |}.

(** Python truthiness of an [Optional[bool]]: [None] and [False] are false. *)
Definition truthy_bool (b : option bool) : bool :=
  match b with
  | Some true => true
  | _ => false
  end.

(** ** Exceptions and the handler monad *)

Inductive Excepcion :=
| HTTPException (status_code : nat) (detail : string)
| AttributeError
| IndexError.

Definition M (A : Type) : Type := list Nota → list Nota * (Excepcion + A).

Definition ret {A} (a : A) : M A := λ db, (db, inr a).

Definition bind {A B} (c : M A) (k : A → M B) : M B :=
  λ db, match c db with
        | (db', inl e) => (db', inl e)
        | (db', inr a) => k a db'
        end.

Definition raise {A} (e : Excepcion) : M A := λ db, (db, inl e).

(** Reading and rebinding the contents of [notas_db]. *)
Definition leer_db : M (list Nota) := λ db, (db, inr db).
Definition modificar_db (f : list Nota → list Nota) : M unit := λ db, (f db, inr tt).

Declare Scope handler_scope.
Delimit Scope handler_scope with handler.
Notation "x ⇐ c ; k" := (bind c (λ x, k))
  (at level 100, c at next level, right associativity) : handler_scope.
Notation "c ;;; k" := (bind c (λ _, k))
  (at level 100, right associativity) : handler_scope.
Bind Scope handler_scope with M.
Open Scope handler_scope.

(** [for x in l: body(x)], where the body may raise. *)
Fixpoint para_cada {A} (l : list A) (cuerpo : A → M unit) : M unit :=
  match l with
  | [] => ret tt
  | x :: r => cuerpo x ;;; para_cada r cuerpo
  end.

(** [if cond: raise e] *)
Definition raise_si (cond : bool) (e : Excepcion) : M unit :=
  if cond then raise e else ret tt.

Definition error_titulo_requerido : Excepcion :=
  HTTPException 400 "El título es requerido".
Definition error_contenido_requerido : Excepcion :=
  HTTPException 400 "El contenido es requerido".
Definition error_titulo_duplicado : Excepcion :=
  HTTPException 400 "Ya existe una nota con ese título".
Definition error_no_encontrada : Excepcion :=
  HTTPException 404 "Nota no encontrada".

(** The error kinds of the specification. *)
Definition InvalidInput (e : Excepcion) : Prop :=
  e = error_titulo_requerido ∨ e = error_contenido_requerido.
Definition Conflict (e : Excepcion) : Prop := e = error_titulo_duplicado.
Definition NotFound (e : Excepcion) : Prop := e = error_no_encontrada.

Section Handlers.
Context `{Texto}.

(** [a.lower() == b.lower()] *)
Definition mismo_titulo (a b : string) : Prop := lower a = lower b.

#[export] Instance mismo_titulo_dec a b : Decision (mismo_titulo a b).
Proof. unfold mismo_titulo. apply _. Defined.

(** [[n for n in l if n.categoria.lower() == categoria.lower()]]: a Note
    whose [categoria] is [None] has no [lower]. *)
Fixpoint filtrar_categoria (cat : string) (l : list Nota) : M (list Nota) :=
  match l with
  | [] => ret []
  | n :: r =>
      match categoria n with
      | None => raise AttributeError
      | Some c =>
          r' ⇐ filtrar_categoria cat r;
          ret (if decide (lower c = lower cat) then n :: r' else r')
      end
  end.

(** [n.importante == importante] for a filter that is not [None]. *)
Definition filtrar_importante (imp : bool) (l : list Nota) : list Nota :=
  filter (λ n : Nota, importante n = Some imp) l.

(** GET /notas (lines 30-44) *)
Definition obtener_notas (cat : option string) (imp : option bool)
  : M (list Nota) :=
  notas_filtradas ⇐ leer_db;
  notas_filtradas ⇐
    match cat with
    | Some (String _ _ as c) => filtrar_categoria c notas_filtradas
    | Some EmptyString | None => ret notas_filtradas   (* [if categoria:] *)
    end;
  notas_filtradas ⇐
    match imp with
    | Some b => ret (filtrar_importante b notas_filtradas)
    | None => ret notas_filtradas                      (* [if importante is not None:] *)
    end;
  ret notas_filtradas.

(** The scan [for i, nota in enumerate(notas_db): if nota.titulo.lower() ==
    titulo.lower(): ...] whose body leaves the function: the first index
    with a matching title, and the Note there. *)
Definition buscar_titulo (t : string) (db : list Nota) : option (nat * Nota) :=
  list_find (λ n : Nota, mismo_titulo (titulo n) t) db.

(** GET /notas/{titulo} (lines 47-54) *)
Definition obtener_nota (t : string) : M Nota :=
  db ⇐ leer_db;
  match buscar_titulo t db with
  | Some (_, nota) => ret nota
  | None => raise error_no_encontrada
  end.

(** POST /notas (lines 57-84) *)
Definition crear_nota (nota : NotaCreate) (ahora : Z) : M Nota :=
  raise_si (bool_decide (strip (titulo nota) = "")) error_titulo_requerido ;;;
  raise_si (bool_decide (strip (contenido nota) = "")) error_contenido_requerido ;;;
  db ⇐ leer_db;
  para_cada db (λ nota_existente : Nota,
    raise_si (bool_decide (mismo_titulo (titulo nota_existente) (titulo nota)))
             error_titulo_duplicado) ;;;
  let fecha_actual := ahora in
  let nueva_nota := construir_Nota nota fecha_actual fecha_actual in
  modificar_db (λ db, db ++ [nueva_nota]) ;;;
  ret nueva_nota.

(** PUT /notas/{titulo} (lines 87-113) *)
Definition actualizar_nota (t : string) (nota_actualizada : NotaCreate)
    (ahora : Z) : M Nota :=
  db ⇐ leer_db;
  match buscar_titulo t db with
  | Some (i, nota) =>
      (if decide (¬ mismo_titulo (titulo nota_actualizada) t)
       then para_cada db (λ nota_existente : Nota,
              raise_si
                (bool_decide
                   (mismo_titulo (titulo nota_existente) (titulo nota_actualizada))
                 && bool_decide (¬ mismo_titulo (titulo nota_existente) t))
                error_titulo_duplicado)
       else ret tt) ;;;
      let nota_actualizada_obj :=
        construir_Nota nota_actualizada (fecha_creacion nota) ahora in
      modificar_db (λ db, <[i := nota_actualizada_obj]> db) ;;;
      ret nota_actualizada_obj
  | None => raise error_no_encontrada
  end.

(** The body of the DELETE response. *)
Record RespuestaEliminar := {
  mensaje : string;
  nota_eliminada : Nota;
}.

(** DELETE /notas/{titulo} (lines 116-127); [notas_db.pop(i)] returns the
    element at [i] and removes it. *)
Definition eliminar_nota (t : string) : M RespuestaEliminar :=
  db ⇐ leer_db;
  match buscar_titulo t db with
  | Some (i, _) =>
      match db !! i with
      | Some nota_eliminada =>
          modificar_db (λ db, delete i db) ;;;
          ret {| mensaje := "Nota eliminada exitosamente";
                 nota_eliminada := nota_eliminada |}
      | None => raise IndexError
      end
  | None => raise error_no_encontrada
  end.

(** GET /buscar/{texto} (lines 130-141) *)
Definition coincide (texto_lower : string) (nota : Nota) : bool :=
  contiene texto_lower (lower (titulo nota))
  || contiene texto_lower (lower (contenido nota)).

Definition buscar_notas (texto : string) : M (list Nota) :=
  db ⇐ leer_db;
  let texto_lower := lower texto in
  ret (foldl (λ resultados nota,
                if coincide texto_lower nota
                then resultados ++ [nota] else resultados)
             [] db).

(** GET /estadisticas (lines 144-159) *)
Record Estadisticas := {
  total_notas : Z;
  notas_importantes : Z;
  notas_normales : Z;
  categorias : gmap (option string) Z;
}.

Definition contar_categorias (db : list Nota) : gmap (option string) Z :=
  foldl (λ (cats : gmap (option string) Z) (nota : Nota),
           <[categoria nota := default 0 (cats !! categoria nota) + 1]> cats)
        ∅ db.

Definition obtener_estadisticas : M Estadisticas :=
  db ⇐ leer_db;
  let total_notas := Z.of_nat (length db) in
  let notas_importantes :=
    Z.of_nat (length (filter (λ n : Nota, truthy_bool (importante n) = true) db)) in
  let categorias := contar_categorias db in
  ret {| total_notas := total_notas;
         notas_importantes := notas_importantes;
         notas_normales := total_notas - notas_importantes;
         categorias := categorias |}.

End Handlers.

(** ** Requests, and the states of [notas_db] a run can reach *)

Inductive Peticion :=
| GET_notas (cat : option string) (imp : option bool)
| GET_nota (t : string)
| POST_notas (nota : NotaCreate)
| PUT_nota (t : string) (nota : NotaCreate)
| DELETE_nota (t : string)
| GET_buscar (texto : string)
| GET_estadisticas.

Section Runs.
Context `{Texto}.

(** The contents of [notas_db] after a request served at clock reading
    [ahora]; a request that raises is answered with an error status and the
    process goes on with the state the exception left. *)
Definition atender (p : Peticion) (ahora : Z) (db : list Nota) : list Nota :=
  match p with
  | GET_notas cat imp => (obtener_notas cat imp db).1
  | GET_nota t => (obtener_nota t db).1
  | POST_notas nota => (crear_nota nota ahora db).1
  | PUT_nota t nota => (actualizar_nota t nota ahora db).1
  | DELETE_nota t => (eliminar_nota t db).1
  | GET_buscar texto => (buscar_notas texto db).1
  | GET_estadisticas => (obtener_estadisticas db).1
  end.

(** [notas_db = []] at start; then any requests, at any clock readings. *)
Inductive reachable : list Nota → Prop :=
| reachable_init : reachable []
| reachable_step db p ahora :
    reachable db → reachable (atender p ahora db).

(** The same with a clock that does not run backwards: [reachable_at t db]
    when [db] is reached and no request so far was served after [t]. *)
Inductive reachable_at : Z → list Nota → Prop :=
| reachable_at_init t : reachable_at t []
| reachable_at_step t db p ahora :
    reachable_at t db → t ≤ ahora → reachable_at ahora (atender p ahora db).

(** The invariants of the data model. *)
Definition clave (n : Nota) : string := lower (titulo n).

Definition titulos_unicos (db : list Nota) : Prop := NoDup (clave <$> db).

Definition en_blanco (s : string) : Prop := strip s = "".

#[export] Instance en_blanco_dec s : Decision (en_blanco s).
Proof. unfold en_blanco. apply _. Defined.

Definition fechas_ordenadas (t : Z) (db : list Nota) : Prop :=
  Forall (λ n : Nota,
    fecha_creacion n ≤ fecha_actualizacion n ∧ fecha_actualizacion n ≤ t) db.

(** The title of some stored Note collides with [t]. *)
Definition titulo_ocupado (t : string) (db : list Nota) : Prop :=
  Exists (λ n : Nota, mismo_titulo (titulo n) t) db.

#[export] Instance titulo_ocupado_dec t db : Decision (titulo_ocupado t db).
Proof. unfold titulo_ocupado. apply _. Defined.

(** Another stored Note, not matched by [t], holds the title [nuevo]. *)
Definition titulo_de_otra (t nuevo : string) (db : list Nota) : Prop :=
  Exists (λ n : Nota,
    mismo_titulo (titulo n) nuevo ∧ ¬ mismo_titulo (titulo n) t) db.

#[export] Instance titulo_de_otra_dec t nuevo db :
  Decision (titulo_de_otra t nuevo db).
Proof. unfold titulo_de_otra. apply _. Defined.

(** How a request changes [notas_db]: nothing, an append, an assignment at
    an index that holds a Note, or a removal at one. *)
Inductive cambio (ahora : Z) (db : list Nota) : list Nota → Prop :=
| cambio_nada : cambio ahora db db
| cambio_crear nota :
    ¬ en_blanco (titulo nota) → ¬ en_blanco (contenido nota) →
    ¬ titulo_ocupado (titulo nota) db →
    cambio ahora db (db ++ [construir_Nota nota ahora ahora])
| cambio_actualizar t nu i nota :
    buscar_titulo t db = Some (i, nota) →
    ¬ (¬ mismo_titulo (titulo nu) t ∧ titulo_de_otra t (titulo nu) db) →
    cambio ahora db (<[i := construir_Nota nu (fecha_creacion nota) ahora]> db)
| cambio_eliminar t i nota :
    buscar_titulo t db = Some (i, nota) → cambio ahora db (delete i db).

(** What the specification asks of a search result: the text occurs, up to
    letter case, in the title or in the content. *)
Definition aparece_en (texto : string) (n : Nota) : Prop :=
  es_subcadena (lower texto) (lower (titulo n)) ∨
  es_subcadena (lower texto) (lower (contenido n)).

(** The number of Notes of a collection with a property. *)
Definition cuenta (P : Nota → Prop) `{∀ n, Decision (P n)} (db : list Nota) : Z :=
  Z.of_nat (length (filter P db)).

End Runs.

(** ** Predicates for the further properties of the handlers *)

Section MasDefiniciones.
Context `{Texto}.

(** [n.categoria.lower() == categoria.lower()] for a Note that has a
    category. *)
Definition misma_categoria (cat : string) (n : Nota) : Prop :=
  match categoria n with
  | Some c => lower c = lower cat
  | None => False
  end.

#[export] Instance misma_categoria_dec cat n : Decision (misma_categoria cat n).
Proof. unfold misma_categoria. destruct (categoria n); apply _. Defined.

(** No stored Note has a blank title or a blank content. *)
Definition sin_blancos (db : list Nota) : Prop :=
  Forall (λ n : Nota, ¬ en_blanco (titulo n) ∧ ¬ en_blanco (contenido n)) db.

(** The requests other than a PUT whose body has a blank title or content. *)
Definition peticion_sin_blancos (p : Peticion) : Prop :=
  match p with
  | PUT_nota _ nu => ¬ en_blanco (titulo nu) ∧ ¬ en_blanco (contenido nu)
  | _ => True
  end.

(** The sum of the counts of a category tally. *)
Definition suma_categorias (cats : gmap (option string) Z) : Z :=
  map_fold (λ _ (k acc : Z), k + acc) 0 cats.

End MasDefiniciones.

(** ** Concrete requests, served with the ASCII text operations *)

Module Ejemplo.

Definition todo : NotaCreate := nota_por_defecto "Todo" "Buy milk" "Alice".
Definition todo_mayusculas : NotaCreate := nota_por_defecto "TODO" "Other" "Bob".
Definition todo_sin_contenido : NotaCreate := nota_por_defecto "todo" "" "Bob".
Definition trabajo : NotaCreate :=
  {| titulo := "Work"; contenido := "Send report"; autor := "Bob";
     categoria := Some "Office"; importante := Some true |}.
Definition trabajo_mayusculas : NotaCreate :=
  nota_por_defecto "WORK" "Send report" "Bob".
Definition en_blanco_todo : NotaCreate := nota_por_defecto "  " "" "Alice".

(** [notas_db] after POST [todo] at time 1, and after POST [trabajo] at 2. *)
Definition db_todo : list Nota := atender (POST_notas todo) 1 [].
Definition db_dos : list Nota := atender (POST_notas trabajo) 2 db_todo.

(** ... and after PUT /notas/todo with a blank title and content at 2. *)
Definition db_en_blanco : list Nota :=
  atender (PUT_nota "todo" en_blanco_todo) 2 db_todo.

(** A collection with the categories "Work", "work", "Work", "Personal". *)
Definition con_categoria (t cat : string) (imp : bool) : Nota :=
  construir_Nota {| titulo := t; contenido := "x"; autor := "a";
                    categoria := Some cat; importante := Some imp |} 1 1.

Definition db_categorias : list Nota :=
  [con_categoria "a" "Work" true; con_categoria "b" "work" false;
   con_categoria "c" "Work" false; con_categoria "d" "Personal" true].

(** A request body with [categoria] and [importante] sent as [null], and
    [notas_db] after POST of it at time 3. *)
Definition sin_categoria : NotaCreate :=
  {| titulo := "Loose"; contenido := "No category"; autor := "Eve";
     categoria := None; importante := None |}.

Definition db_sin_categoria : list Nota := atender (POST_notas sin_categoria) 3 db_dos.

(** A body that renames a Note to a title nobody holds. *)
Definition tareas : NotaCreate := nota_por_defecto "Chores" "Clean" "Alice".

End Ejemplo.

(** ** The substring test *)

Lemma append_String c a b : String c a +:+ b = String c (a +:+ b).
Proof. reflexivity. Qed.

Lemma prefix_es_prefijo a b :
  Stdlib.Strings.String.prefix a b = true ↔ ∃ post, b = a +:+ post.
Proof.
  revert b. induction a as [|c a IH]; intros b.
  - split; [by exists b|by destruct b].
  - destruct b as [|d b]; simpl.
    + split; [done|]. by intros [post ?].
    + destruct (ascii_dec c d) as [->|Hne].
      * rewrite IH. split; intros [post Hp]; exists post;
          rewrite append_String in *; congruence.
      * split; [done|]. intros [post Hp]. rewrite append_String in Hp.
        congruence.
Qed.

Lemma contiene_es_subcadena a b : contiene a b = true ↔ es_subcadena a b.
Proof.
  unfold es_subcadena. split.
  - induction b as [|d b IH]; cbn [contiene]; rewrite orb_true_iff.
    + intros [Hp|?]; [|done]. apply prefix_es_prefijo in Hp as [post Hp].
      by exists "", post.
    + intros [Hp|Hc].
      * apply prefix_es_prefijo in Hp as [post Hp]. by exists "", post.
      * destruct (IH Hc) as (pre & post & ->). by exists (String d pre), post.
  - intros (pre & post & ->). induction pre as [|d pre IH].
    + assert (Stdlib.Strings.String.prefix a (a +:+ post) = true) as Hp.
      { apply prefix_es_prefijo. by exists post. }
      change ("" +:+ a +:+ post) with (a +:+ post).
      destruct (a +:+ post); cbn [contiene]; rewrite Hp; done.
    + rewrite append_String. cbn [contiene]. rewrite IH. apply orb_true_r.
Qed.

#[export] Instance es_subcadena_dec a b : Decision (es_subcadena a b).
Proof.
  destruct (contiene a b) eqn:Hc.
  - left. by apply contiene_es_subcadena.
  - right. intros Hs%contiene_es_subcadena. congruence.
Defined.

(** ** What each handler computes *)

Section HandlerFacts.
Context `{Texto}.

Lemma para_cada_raise_si {A} (f : A → bool) (e : Excepcion) (l : list A) db :
  para_cada l (λ x, raise_si (f x) e) db =
    (db, if decide (Exists (λ x, f x = true) l) then inl e else inr tt).
Proof.
  induction l as [|x l IH]; cbn [para_cada].
  - unfold ret. rewrite decide_False; [done|]. by intros ?%Exists_nil.
  - unfold bind, raise_si at 1. destruct (f x) eqn:Hx.
    + unfold raise. rewrite decide_True; [done|]. by left.
    + unfold ret at 1. rewrite IH. f_equal.
      destruct (decide (Exists _ l)) as [Hl|Hl].
      * rewrite decide_True; [done|]. by right.
      * rewrite decide_False; [done|].
        intros [?|?]%Exists_cons; [congruence|done].
Qed.

Lemma buscar_titulo_Some t db i nota :
  buscar_titulo t db = Some (i, nota) ↔
    db !! i = Some nota ∧ mismo_titulo (titulo nota) t ∧
    ∀ j (otra : Nota), db !! j = Some otra → (j < i)%nat →
      ¬ mismo_titulo (titulo otra) t.
Proof.
  unfold buscar_titulo.
  apply (list_find_Some (λ n : Nota, mismo_titulo (titulo n) t)).
Qed.

Lemma buscar_titulo_None t db :
  buscar_titulo t db = None ↔ ∀ n : Nota, n ∈ db → ¬ mismo_titulo (titulo n) t.
Proof. unfold buscar_titulo. rewrite list_find_None, Forall_forall. done. Qed.

(** [obtener_nota] reads: the state is returned as it was. *)
Lemma obtener_nota_eq t db :
  obtener_nota t db =
    (db, match buscar_titulo t db with
         | Some (_, nota) => inr nota
         | None => inl error_no_encontrada
         end).
Proof.
  unfold obtener_nota, bind, leer_db.
  by destruct (buscar_titulo t db) as [[i nota]|].
Qed.

Lemma crear_nota_eq nota ahora db :
  crear_nota nota ahora db =
    if decide (en_blanco (titulo nota)) then (db, inl error_titulo_requerido)
    else if decide (en_blanco (contenido nota))
         then (db, inl error_contenido_requerido)
    else if decide (titulo_ocupado (titulo nota) db)
         then (db, inl error_titulo_duplicado)
    else let nueva := construir_Nota nota ahora ahora in
         (db ++ [nueva], inr nueva).
Proof.
  unfold crear_nota, en_blanco, titulo_ocupado.
  unfold bind at 1. unfold raise_si at 1.
  case_bool_decide; [by rewrite decide_True|rewrite decide_False by done].
  unfold ret at 1, bind at 1, raise_si at 1.
  case_bool_decide; [by rewrite decide_True|rewrite decide_False by done].
  unfold ret at 1, bind at 1, leer_db, bind at 1.
  rewrite para_cada_raise_si.
  destruct (decide (Exists _ db)) as [Hex|Hex].
  - rewrite decide_True; [done|].
    eapply Exists_impl; [exact Hex|]. intros n Hn. by apply bool_decide_eq_true in Hn.
  - rewrite decide_False; [done|]. intros Hex'. apply Hex.
    eapply Exists_impl; [exact Hex'|]. intros n Hn. by apply bool_decide_eq_true.
Qed.

Lemma actualizar_nota_eq t nu ahora db :
  actualizar_nota t nu ahora db =
    match buscar_titulo t db with
    | None => (db, inl error_no_encontrada)
    | Some (i, nota) =>
        if decide (¬ mismo_titulo (titulo nu) t ∧ titulo_de_otra t (titulo nu) db)
        then (db, inl error_titulo_duplicado)
        else let obj := construir_Nota nu (fecha_creacion nota) ahora in
             (<[i := obj]> db, inr obj)
    end.
Proof.
  unfold actualizar_nota, titulo_de_otra. unfold bind at 1, leer_db.
  destruct (buscar_titulo t db) as [[i nota]|]; [|done].
  unfold bind at 1.
  destruct (decide (¬ mismo_titulo (titulo nu) t)) as [Hne|Heq].
  - rewrite para_cada_raise_si.
    destruct (decide (Exists _ db)) as [Hex|Hex].
    + rewrite decide_True; [done|]. split; [done|].
      eapply Exists_impl; [exact Hex|]. intros n Hn.
      apply andb_true_iff in Hn as [?%bool_decide_eq_true ?%bool_decide_eq_true].
      done.
    + rewrite decide_False; [done|]. intros [_ Hex']. apply Hex.
      eapply Exists_impl; [exact Hex'|]. intros n [??].
      apply andb_true_iff. by rewrite !bool_decide_eq_true.
  - rewrite decide_False; [done|]. by intros [? _].
Qed.

Lemma eliminar_nota_eq t db :
  eliminar_nota t db =
    match buscar_titulo t db with
    | None => (db, inl error_no_encontrada)
    | Some (i, nota) =>
        (delete i db, inr {| mensaje := "Nota eliminada exitosamente";
                             nota_eliminada := nota |})
    end.
Proof.
  unfold eliminar_nota. unfold bind at 1, leer_db.
  destruct (buscar_titulo t db) as [[i nota]|] eqn:Hb; [|done].
  apply buscar_titulo_Some in Hb as (-> & _ & _). done.
Qed.

End HandlerFacts.

(** ** Invariants of the reachable states *)

Section Invariants.
Context `{Texto}.

Lemma filtrar_categoria_estado c l db : (filtrar_categoria c l db).1 = db.
Proof.
  induction l as [|n l IH]; cbn [filtrar_categoria]; [done|].
  destruct (categoria n); [|done].
  unfold bind. destruct (filtrar_categoria c l db) as [db' [e|r]]; done.
Qed.

Lemma obtener_notas_estado cat imp db : (obtener_notas cat imp db).1 = db.
Proof.
  unfold obtener_notas, bind, leer_db.
  destruct cat as [[|a c]|].
  - destruct imp; done.
  - pose proof (filtrar_categoria_estado (String a c) db db) as Hf.
    destruct (filtrar_categoria _ db db) as [db' [e|r]]; simpl in Hf; subst db';
      [done|destruct imp; done].
  - destruct imp; done.
Qed.

Lemma atender_cambio p ahora db : cambio ahora db (atender p ahora db).
Proof.
  destruct p as [cat imp|t|nota|t nu|t|texto|]; cbn [atender].
  - rewrite obtener_notas_estado. constructor.
  - rewrite obtener_nota_eq. constructor.
  - rewrite crear_nota_eq. repeat case_decide; try constructor; done.
  - rewrite actualizar_nota_eq.
    destruct (buscar_titulo t db) as [[i nota]|] eqn:Hb; [|constructor].
    case_decide; [constructor|]. by eapply cambio_actualizar.
  - rewrite eliminar_nota_eq.
    destruct (buscar_titulo t db) as [[i nota]|] eqn:Hb; [|constructor].
    by eapply cambio_eliminar.
  - constructor.
  - constructor.
Qed.

Lemma NoDup_insert_key (l : list string) i k k' :
  NoDup l → l !! i = Some k → (k' = k ∨ k' ∉ l) → NoDup (<[i := k']> l).
Proof.
  intros Hnd Hi [->|Hnotin].
  - by rewrite list_insert_id.
  - rewrite insert_take_drop by (by eapply lookup_lt_Some).
    rewrite <- (take_drop_middle l i k Hi) in Hnd, Hnotin.
    apply NoDup_app in Hnd as (Hnd1 & Hdisj & Hnd2).
    apply NoDup_cons in Hnd2 as [_ Hnd2].
    apply NoDup_app. split_and!; [done| |].
    + intros x Hx [->|Hin]%elem_of_cons.
      * apply Hnotin, elem_of_app. by left.
      * eapply Hdisj; [done|]. by right.
    + apply NoDup_cons. split; [|done].
      intros Hin. apply Hnotin, elem_of_app. right. by right.
Qed.

Lemma cambio_titulos_unicos ahora db db' :
  cambio ahora db db' → titulos_unicos db → titulos_unicos db'.
Proof.
  unfold titulos_unicos.
  intros [|nota _ _ Hlibre|t nu i nota Hb Hchk|t i nota Hb] Hnd; [done|..].
  - rewrite fmap_app. apply NoDup_app. split_and!; [done| |apply NoDup_singleton].
    intros k (n & -> & Hn)%list_elem_of_fmap Hk%list_elem_of_singleton.
    apply Hlibre, Exists_exists. exists n. split; [done|]. exact Hk.
  - apply buscar_titulo_Some in Hb as (Hi & Hm & _).
    rewrite list_fmap_insert.
    apply NoDup_insert_key with (k := clave nota); [done|by rewrite list_lookup_fmap, Hi|].
    destruct (decide (mismo_titulo (titulo nu) t)) as [Heq|Hne].
    { left. unfold clave, mismo_titulo in *. simpl. congruence. }
    destruct (decide (clave (construir_Nota nu (fecha_creacion nota) ahora)
                        ∈ clave <$> db)) as [Hin|Hnotin]; [|by right].
    apply list_elem_of_fmap in Hin as (n & Hk & Hn).
    destruct (decide (mismo_titulo (titulo n) t)) as [Hnt|Hnt].
    { left. unfold clave, mismo_titulo in *. simpl in *. congruence. }
    destruct Hchk. split; [done|].
    apply Exists_exists. exists n. split_and!; [done| |done].
    unfold clave, mismo_titulo in *. simpl in *. congruence.
  - rewrite list_fmap_delete. eapply sublist_NoDup; [done|apply sublist_delete].
Qed.

Lemma reachable_titulos_unicos db : reachable db → titulos_unicos db.
Proof.
  induction 1 as [|db p ahora _ IH].
  - apply NoDup_nil_2.
  - eapply cambio_titulos_unicos; [apply atender_cambio|done].
Qed.

Lemma cambio_fechas_ordenadas t ahora db db' :
  cambio ahora db db' → t ≤ ahora →
  fechas_ordenadas t db → fechas_ordenadas ahora db'.
Proof.
  unfold fechas_ordenadas. intros Hc Hle Hdb.
  assert (Forall (λ n : Nota, fecha_creacion n ≤ fecha_actualizacion n ∧
                              fecha_actualizacion n ≤ ahora) db) as Hdb'.
  { eapply Forall_impl; [exact Hdb|]. simpl. intros n [??]. lia. }
  destruct Hc as [|nota _ _ _|u nu i nota Hb _|u i nota Hb]; [done|..].
  - apply Forall_app. split; [done|]. apply Forall_singleton. simpl. lia.
  - apply buscar_titulo_Some in Hb as (Hi & _ & _).
    apply Forall_insert; [done|]. simpl.
    eapply Forall_lookup_1 in Hdb as [??]; [|exact Hi]. lia.
  - by apply Forall_delete.
Qed.

Lemma reachable_at_fechas_ordenadas t db :
  reachable_at t db → fechas_ordenadas t db.
Proof.
  induction 1 as [t|t db p ahora _ IH Hle].
  - apply Forall_nil_2.
  - eapply cambio_fechas_ordenadas; [apply atender_cambio|done..].
Qed.

Lemma reachable_at_reachable t db : reachable_at t db → reachable db.
Proof. induction 1; by constructor. Qed.

(** In a state with unique titles, any Note matched by [t] is the one the
    scan finds. *)
Lemma buscar_titulo_unico t db i (nota : Nota) :
  titulos_unicos db → db !! i = Some nota → mismo_titulo (titulo nota) t →
  buscar_titulo t db = Some (i, nota).
Proof.
  intros Hnd Hi Hm. apply buscar_titulo_Some. split_and!; [done..|].
  intros j otra Hj Hlt Hmj.
  assert (j = i) as ->; [|lia].
  eapply (NoDup_lookup (clave <$> db)); [exact Hnd|..];
    rewrite list_lookup_fmap; [rewrite Hj|rewrite Hi]; simpl; [done|].
  unfold clave, mismo_titulo in *. congruence.
Qed.

End Invariants.

(** ** The properties of the specification *)

Section Claims.
Context `{Texto}.

(** Two Notes at different places of a reachable collection differ in their
    titles, also up to letter case. *)
Lemma reachable_una_por_titulo db i j (n m : Nota) :
  reachable db → db !! i = Some n → db !! j = Some m →
  mismo_titulo (titulo n) (titulo m) → i = j.
Proof.
  intros Hr Hi Hj Hm. apply reachable_titulos_unicos in Hr.
  eapply (NoDup_lookup (clave <$> db)); [exact Hr|..];
    rewrite list_lookup_fmap; [rewrite Hi|rewrite Hj]; simpl; [done|].
  unfold clave. by rewrite Hm.
Qed.

(** C2 (amended). In every reachable state of [notas_db] at most one Note
    has a given title under case-insensitive comparison, and every request
    leads to a state where this holds again.  A create whose title equals,
    up to letter case, the title of a stored Note always fails and leaves
    the collection as it is: with Conflict when the title and the content of
    the request are not blank, with InvalidInput (and not Conflict) when one
    of them is. *)
Theorem C2_unique_titles (db : list Nota) :
  reachable db →
  (∀ i j (n m : Nota), db !! i = Some n → db !! j = Some m →
     mismo_titulo (titulo n) (titulo m) → i = j) ∧
  (∀ p ahora i j (n m : Nota),
     atender p ahora db !! i = Some n → atender p ahora db !! j = Some m →
     mismo_titulo (titulo n) (titulo m) → i = j) ∧
  (∀ nota ahora, titulo_ocupado (titulo nota) db →
     ∃ e, crear_nota nota ahora db = (db, inl e) ∧
          (InvalidInput e ∨ Conflict e) ∧
          (¬ en_blanco (titulo nota) → ¬ en_blanco (contenido nota) →
           Conflict e) ∧
          (en_blanco (titulo nota) ∨ en_blanco (contenido nota) →
           InvalidInput e ∧ ¬ Conflict e)).
Proof.
  intros Hr. split_and!.
  - intros i j n m. by apply reachable_una_por_titulo.
  - intros p ahora i j n m. apply reachable_una_por_titulo. by constructor.
  - intros nota ahora Hocc. rewrite crear_nota_eq.
    destruct (decide (en_blanco (titulo nota))) as [Ht|Ht].
    { eexists. split_and!; [done|by left; left|done|].
      intros _. split; [by left|]. by intros [=]. }
    destruct (decide (en_blanco (contenido nota))) as [Hc|Hc].
    { eexists. split_and!; [done|by left; right|done|].
      intros _. split; [by right|]. by intros [=]. }
    rewrite decide_True by done.
    eexists. split_and!; [done|by right|done|]. by intros [?|?].
Qed.

(** C3. A create, update or delete that fails leaves [notas_db] exactly as
    it was, and fails with InvalidInput, Conflict or NotFound. *)
Theorem C3_failure_leaves_collection (db db' : list Nota) (e : Excepcion) :
  (∀ nota ahora, crear_nota nota ahora db = (db', inl e) →
     db' = db ∧ (InvalidInput e ∨ Conflict e)) ∧
  (∀ t nu ahora, actualizar_nota t nu ahora db = (db', inl e) →
     db' = db ∧ (Conflict e ∨ NotFound e)) ∧
  (∀ t, eliminar_nota t db = (db', inl e) → db' = db ∧ NotFound e).
Proof.
  split_and!.
  - intros nota ahora. rewrite crear_nota_eq.
    repeat case_decide; intros [= <- <-]; (split; [done|]);
      [by left; left|by left; right|by right].
  - intros t nu ahora. rewrite actualizar_nota_eq.
    destruct (buscar_titulo t db) as [[i nota]|].
    + case_decide; intros [= <- <-]. split; [done|by left].
    + intros [= <- <-]. split; [done|by right].
  - intros t. rewrite eliminar_nota_eq.
    destruct (buscar_titulo t db) as [[i nota]|]; intros [= <- <-]. done.
Qed.

(** C4. In a reachable collection with a Note matched by the given title,
    update fails with Conflict when the new title equals, up to letter
    case, the title of a different stored Note, and succeeds when the new
    title equals, up to letter case, the current title of the Note itself. *)
Theorem C4_update_title_check db t nu ahora i (nota : Nota) :
  reachable db → db !! i = Some nota → mismo_titulo (titulo nota) t →
  (∀ j (otra : Nota), j ≠ i → db !! j = Some otra →
     mismo_titulo (titulo otra) (titulo nu) →
     ∃ e, actualizar_nota t nu ahora db = (db, inl e) ∧ Conflict e) ∧
  (mismo_titulo (titulo nu) (titulo nota) →
     ∃ r : Nota, actualizar_nota t nu ahora db = (<[i := r]> db, inr r) ∧
                 base r = nu).
Proof.
  intros Hr Hi Hm. pose proof (reachable_titulos_unicos _ Hr) as Hnd.
  rewrite actualizar_nota_eq, (buscar_titulo_unico t db i nota) by done.
  split.
  - intros j otra Hji Hj Hmj.
    assert (¬ mismo_titulo (titulo otra) t) as Hne.
    { intros Hot. apply Hji.
      eapply (reachable_una_por_titulo db j i otra nota); [done..|].
      unfold mismo_titulo in *. congruence. }
    rewrite decide_True; [by eexists|]. split.
    + unfold mismo_titulo in *. congruence.
    + apply Exists_exists. exists otra.
      split; [by eapply list_elem_of_lookup_2|done].
  - intros Hown. rewrite decide_False.
    + eexists. split; [done|]. by destruct nu.
    + intros [Hne _]. apply Hne. unfold mismo_titulo in *. congruence.
Qed.

(** C5 (amended). In a reachable collection, a successful update of the
    Note matched by the given title replaces every field but
    [fecha_creacion] by the request's, sets [fecha_actualizacion] to the
    clock reading of the request, and assigns the new Note at the index of
    the old one: the collection keeps its length and every other index keeps
    its Note.  The new [fecha_actualizacion] is not before the previous one
    whenever the clock readings of the requests served so far, and of this
    one, did not decrease. *)
Theorem C5_update_in_place db t nu ahora i (nota : Nota) db' (r : Nota) :
  reachable db →
  db !! i = Some nota → mismo_titulo (titulo nota) t →
  actualizar_nota t nu ahora db = (db', inr r) →
  base r = nu ∧
  fecha_creacion r = fecha_creacion nota ∧
  fecha_actualizacion r = ahora ∧
  db' = <[i := r]> db ∧
  length db' = length db ∧
  db' !! i = Some r ∧
  (∀ j, j ≠ i → db' !! j = db !! j) ∧
  (∀ t0, reachable_at t0 db → t0 ≤ ahora →
         fecha_actualizacion nota ≤ fecha_actualizacion r).
Proof.
  intros Hr Hi Hm.
  pose proof (reachable_titulos_unicos _ Hr) as Hnd.
  rewrite actualizar_nota_eq, (buscar_titulo_unico t db i nota) by done.
  case_decide; [done|]. intros [= <- <-]. simpl.
  split_and!; [by destruct nu|done|done|done|apply length_insert| | |].
  - apply list_lookup_insert_eq. by eapply lookup_lt_Some.
  - intros j Hj. by apply list_lookup_insert_ne.
  - intros t0 Hat Hle.
    pose proof (reachable_at_fechas_ordenadas _ _ Hat) as Hord.
    eapply Forall_lookup_1 in Hord as [_ Hprev]; [|exact Hi]. lia.
Qed.

(** C6. A create whose title and content are not blank and whose title
    collides, up to letter case, with no stored Note succeeds and appends the
    new Note at the end; a get with that title then returns this Note: its
    title, content, author, category and importance are the request's, and
    its two timestamps are equal. *)
Theorem C6_create_then_get db (nota : NotaCreate) ahora :
  ¬ en_blanco (titulo nota) → ¬ en_blanco (contenido nota) →
  ¬ titulo_ocupado (titulo nota) db →
  ∃ nueva : Nota,
    crear_nota nota ahora db = (db ++ [nueva], inr nueva) ∧
    obtener_nota (titulo nota) (db ++ [nueva]) = (db ++ [nueva], inr nueva) ∧
    titulo nueva = titulo nota ∧ contenido nueva = contenido nota ∧
    autor nueva = autor nota ∧ categoria nueva = categoria nota ∧
    importante nueva = importante nota ∧
    fecha_creacion nueva = fecha_actualizacion nueva.
Proof.
  intros Ht Hc Hlibre. exists (construir_Nota nota ahora ahora).
  split_and!; try done.
  - rewrite crear_nota_eq. by rewrite !decide_False by done.
  - rewrite obtener_nota_eq.
    assert (buscar_titulo (titulo nota) (db ++ [construir_Nota nota ahora ahora])
            = Some (length db, construir_Nota nota ahora ahora)) as ->; [|done].
    apply buscar_titulo_Some. split_and!.
    + by rewrite lookup_app_r, Nat.sub_diag by lia.
    + done.
    + intros j otra Hj Hlt Hmj. rewrite lookup_app_l in Hj by done.
      apply Hlibre, Exists_exists. exists otra.
      split; [by eapply list_elem_of_lookup_2|done].
Qed.

(** C7. In a reachable collection, delete with a title that matches a Note
    removes the Note at that index and nothing else, and returns the Note as
    it was stored; a get with the same title then fails with NotFound.  With
    a title that matches no Note, delete fails with NotFound. *)
Theorem C7_delete_removes db t :
  reachable db →
  (∀ i (nota : Nota), db !! i = Some nota → mismo_titulo (titulo nota) t →
     ∃ resp e,
       eliminar_nota t db = (delete i db, inr resp) ∧
       nota_eliminada resp = nota ∧
       (∀ j, (j < i)%nat → delete i db !! j = db !! j) ∧
       (∀ j, (i ≤ j)%nat → delete i db !! j = db !! S j) ∧
       obtener_nota t (delete i db) = (delete i db, inl e) ∧ NotFound e) ∧
  (¬ titulo_ocupado t db →
     ∃ e, eliminar_nota t db = (db, inl e) ∧ NotFound e).
Proof.
  intros Hr. pose proof (reachable_titulos_unicos _ Hr) as Hnd. split.
  - intros i nota Hi Hm.
    rewrite eliminar_nota_eq, (buscar_titulo_unico t db i nota) by done.
    eexists _, error_no_encontrada. split_and!; [done|done| | | |done].
    + intros j Hj. by apply list_lookup_delete_lt.
    + intros j Hj. by apply list_lookup_delete_ge.
    + rewrite obtener_nota_eq.
      assert (buscar_titulo t (delete i db) = None) as ->; [|done].
      apply buscar_titulo_None. intros n [j Hj]%list_elem_of_lookup Hmn.
      assert (mismo_titulo (titulo n) (titulo nota)) as Hnn.
      { unfold mismo_titulo in *. congruence. }
      destruct (decide (j < i)%nat) as [Hlt|Hge].
      * rewrite list_lookup_delete_lt in Hj by done.
        pose proof (reachable_una_por_titulo db j i n nota Hr Hj Hi Hnn). lia.
      * rewrite list_lookup_delete_ge in Hj by lia.
        pose proof (reachable_una_por_titulo db (S j) i n nota Hr Hj Hi Hnn). lia.
  - intros Hno. rewrite eliminar_nota_eq.
    assert (buscar_titulo t db = None) as ->; [|by eexists].
    apply buscar_titulo_None. intros n Hn Hmn.
    apply Hno, Exists_exists. by exists n.
Qed.

Lemma foldl_resultados (f : Nota → bool) (P : Nota → Prop)
    `{∀ n, Decision (P n)} (l acc : list Nota) :
  (∀ n, f n = true ↔ P n) →
  foldl (λ resultados nota, if f nota then resultados ++ [nota] else resultados)
        acc l = acc ++ filter P l.
Proof.
  intros Hf. revert acc. induction l as [|n l IH]; intros acc; simpl.
  - by rewrite app_nil_r.
  - rewrite IH, filter_cons. destruct (f n) eqn:Hn.
    + rewrite decide_True by (by apply Hf). by rewrite <- app_assoc.
    + rewrite decide_False; [done|]. intros ?%Hf. congruence.
Qed.

(** C8. Search with the empty text returns the whole collection.  Search
    with any text returns, in the order of the collection, exactly the Notes
    in whose title or content the text occurs up to letter case. *)
Theorem C8_search db texto :
  buscar_notas "" db = (db, inr db) ∧
  buscar_notas texto db = (db, inr (filter (aparece_en texto) db)) ∧
  ∀ n : Nota, n ∈ filter (aparece_en texto) db ↔ n ∈ db ∧ aparece_en texto n.
Proof.
  assert (∀ u, buscar_notas u db = (db, inr (filter (aparece_en u) db))) as Hb.
  { intros u. unfold buscar_notas, bind, leer_db, ret. do 2 f_equal.
    apply (foldl_resultados _ (aparece_en u) db []).
    intros n. unfold coincide, aparece_en.
    by rewrite orb_true_iff, !contiene_es_subcadena. }
  split_and!; [|done|].
  - rewrite Hb. do 2 f_equal. clear Hb. induction db as [|n db IH]; [done|].
    rewrite filter_cons, decide_True, IH; [done|].
    left. rewrite lower_empty. by exists "", (lower (titulo n)).
  - intros n. by rewrite list_elem_of_filter, (comm and).
Qed.

Lemma foldl_categorias (db : list Nota) (acc : gmap (option string) Z) c :
  foldl (λ (cats : gmap (option string) Z) (nota : Nota),
           <[categoria nota := default 0 (cats !! categoria nota) + 1]> cats)
        acc db !! c =
    if decide (cuenta (λ n : Nota, categoria n = c) db = 0) then acc !! c
    else Some (default 0 (acc !! c) + cuenta (λ n : Nota, categoria n = c) db).
Proof.
  unfold cuenta. revert acc. induction db as [|n db IH]; intros acc; [done|].
  cbn [foldl]. rewrite IH, filter_cons.
  destruct (decide (categoria n = c)) as [->|Hne].
  - rewrite lookup_insert_eq. cbn [length default].
    rewrite (decide_False (P := Z.of_nat (S _) = 0)) by lia.
    case_decide as Hz; f_equal; unfold id; lia.
  - by rewrite lookup_insert_ne.
Qed.

(** C9. The statistics give the number of Notes, the number of Notes with
    [importante] true, their difference as the number of normal Notes (which
    is the number of Notes whose [importante] is not true), and a mapping
    that has, for every category held by some Note, the number of Notes
    with exactly that value, and no other key: the key is the stored value
    itself, so categories that differ in letter case have their own counts. *)
Theorem C9_statistics db :
  ∃ st : Estadisticas,
    obtener_estadisticas db = (db, inr st) ∧
    total_notas st = Z.of_nat (length db) ∧
    notas_importantes st = cuenta (λ n : Nota, importante n = Some true) db ∧
    notas_normales st = total_notas st - notas_importantes st ∧
    notas_normales st = cuenta (λ n : Nota, ¬ importante n = Some true) db ∧
    ∀ c, categorias st !! c =
           if decide (cuenta (λ n : Nota, categoria n = c) db = 0) then None
           else Some (cuenta (λ n : Nota, categoria n = c) db).
Proof.
  unfold obtener_estadisticas, bind, leer_db, ret.
  eexists. split; [reflexivity|].
  cbn [total_notas notas_importantes notas_normales categorias].
  assert (filter (λ n : Nota, truthy_bool (importante n) = true) db
          = filter (λ n : Nota, importante n = Some true) db) as ->.
  { apply list_filter_iff. intros n. by destruct (importante n) as [[]|]. }
  split_and!; [done..| |].
  - unfold cuenta.
    pose proof (filter_app_complement (λ n : Nota, importante n = Some true) db)
      as Hp.
    apply Permutation_length in Hp. rewrite length_app in Hp. lia.
  - intros c. unfold contar_categorias. rewrite foldl_categorias.
    rewrite lookup_empty. cbn [default]. by case_decide.
Qed.

(** C10. A list request whose category filter is the empty string is
    answered as one without category filter: with the whole collection, or
    with its Notes of the requested importance when that filter is given. *)
Theorem C10_empty_category_is_no_filter db imp :
  obtener_notas (Some "") imp db = obtener_notas None imp db ∧
  obtener_notas (Some "") imp db =
    (db, inr match imp with
             | Some b => filter (λ n : Nota, importante n = Some b) db
             | None => db
             end).
Proof. by destruct imp. Qed.

End Claims.

(** ** The claims on concrete requests *)

Lemma reachable_db_todo : reachable Ejemplo.db_todo.
Proof. apply reachable_step, reachable_init. Qed.

Lemma reachable_db_dos : reachable Ejemplo.db_dos.
Proof. apply reachable_step, reachable_db_todo. Qed.

Lemma reachable_at_db_dos : reachable_at 2 Ejemplo.db_dos.
Proof.
  apply reachable_at_step with (t := 1); [|lia].
  apply reachable_at_step with (t := 0); [|lia].
  apply reachable_at_init.
Qed.

(** C1 (defect of [actualizar_nota]). [crear_nota] refuses a blank title
    and a blank content, [actualizar_nota] checks neither: after
    POST [todo] and PUT /notas/todo with the title "  " and the content "",
    both served with success, the one stored Note has a whitespace-only
    title and an empty content, where the same body sent to POST is refused
    with InvalidInput. *)
Theorem C1_update_stores_blank_note :
  reachable Ejemplo.db_todo ∧
  Forall (λ n : Nota, ¬ en_blanco (titulo n) ∧ ¬ en_blanco (contenido n))
         Ejemplo.db_todo ∧
  crear_nota Ejemplo.en_blanco_todo 2 Ejemplo.db_todo
    = (Ejemplo.db_todo, inl error_titulo_requerido) ∧
  actualizar_nota "todo" Ejemplo.en_blanco_todo 2 Ejemplo.db_todo
    = (Ejemplo.db_en_blanco, inr (construir_Nota Ejemplo.en_blanco_todo 1 2)) ∧
  reachable Ejemplo.db_en_blanco ∧
  Ejemplo.db_en_blanco = [construir_Nota Ejemplo.en_blanco_todo 1 2] ∧
  Exists (λ n : Nota, en_blanco (titulo n) ∧ en_blanco (contenido n))
         Ejemplo.db_en_blanco.
Proof.
  split_and!.
  - apply reachable_db_todo.
  - apply Forall_singleton. split; intros Hb; vm_compute in Hb; discriminate.
  - reflexivity.
  - reflexivity.
  - apply reachable_step, reachable_db_todo.
  - reflexivity.
  - apply Exists_cons_hd. split; reflexivity.
Qed.

(** C2, as stated, fails: with a Note titled "Todo" stored, a create with
    the title "todo" and an empty content fails with InvalidInput, not with
    Conflict. *)
Lemma C2_create_collision_not_always_conflict :
  ¬ (∀ (db : list Nota) (nota : NotaCreate) (ahora : Z),
       reachable db → titulo_ocupado (titulo nota) db →
       ∃ e, (crear_nota nota ahora db).2 = inl e ∧ Conflict e).
Proof.
  intros Hclaim.
  destruct (Hclaim Ejemplo.db_todo Ejemplo.todo_sin_contenido 2)
    as (e & He & Hconf).
  - apply reachable_db_todo.
  - apply Exists_cons_hd. reflexivity.
  - vm_compute in He. unfold Conflict in Hconf. subst e. discriminate He.
Qed.

(** C5, as stated, fails: the handler stores whatever [datetime.now()]
    returns.  In [db_dos], whose Note "Work" was created at time 2, a PUT
    /notas/work served at a clock reading of -5 succeeds and stores an
    update time before the previous one (and before the creation time). *)
Lemma C5_update_time_can_decrease :
  ¬ (∀ (db : list Nota) t (nu : NotaCreate) ahora i (nota : Nota) db' (r : Nota),
       reachable db → db !! i = Some nota → mismo_titulo (titulo nota) t →
       actualizar_nota t nu ahora db = (db', inr r) →
       fecha_actualizacion nota ≤ fecha_actualizacion r).
Proof.
  intros Hclaim.
  pose proof (Hclaim Ejemplo.db_dos "work" Ejemplo.trabajo_mayusculas (-5)
                1%nat (construir_Nota Ejemplo.trabajo 2 2)
                [construir_Nota Ejemplo.todo 1 1;
                 construir_Nota Ejemplo.trabajo_mayusculas 2 (-5)]
                (construir_Nota Ejemplo.trabajo_mayusculas 2 (-5))
                reachable_db_dos eq_refl eq_refl eq_refl) as Hle.
  simpl in Hle. lia.
Qed.

(** C2 at [db_todo]: the titles are unique, creating "TODO" is a Conflict
    that leaves the collection as it is, and creating "todo" with an empty
    content is an InvalidInput that does. *)
Lemma C2_unique_titles_witness :
  reachable Ejemplo.db_todo ∧
  (∃ e, crear_nota Ejemplo.todo_mayusculas 2 Ejemplo.db_todo
          = (Ejemplo.db_todo, inl e) ∧ Conflict e) ∧
  (∃ e, crear_nota Ejemplo.todo_sin_contenido 2 Ejemplo.db_todo
          = (Ejemplo.db_todo, inl e) ∧ InvalidInput e ∧ ¬ Conflict e).
Proof.
  split; [apply reachable_db_todo|].
  destruct (C2_unique_titles Ejemplo.db_todo reachable_db_todo) as (_ & _ & Hc).
  split.
  - destruct (Hc Ejemplo.todo_mayusculas 2) as (e & He & _ & Hconf & _).
    + apply Exists_cons_hd. reflexivity.
    + exists e. split; [exact He|].
      apply Hconf; intros Hb; vm_compute in Hb; discriminate.
  - destruct (Hc Ejemplo.todo_sin_contenido 2) as (e & He & _ & _ & Hinv).
    + apply Exists_cons_hd. reflexivity.
    + exists e. split; [exact He|]. apply Hinv. right. reflexivity.
Defined.

(** C3 at [db_todo]: a second "TODO", an update and a delete of a title
    nobody holds. *)
Lemma C3_failure_leaves_collection_witness :
  (crear_nota Ejemplo.todo_mayusculas 2 Ejemplo.db_todo).1 = Ejemplo.db_todo ∧
  (actualizar_nota "nada" Ejemplo.todo 2 Ejemplo.db_todo).1 = Ejemplo.db_todo ∧
  (eliminar_nota "nada" Ejemplo.db_todo).1 = Ejemplo.db_todo.
Proof.
  split_and!.
  - destruct (C3_failure_leaves_collection Ejemplo.db_todo
                (crear_nota Ejemplo.todo_mayusculas 2 Ejemplo.db_todo).1
                error_titulo_duplicado) as (Hc & _ & _).
    apply (Hc Ejemplo.todo_mayusculas 2). reflexivity.
  - destruct (C3_failure_leaves_collection Ejemplo.db_todo
                (actualizar_nota "nada" Ejemplo.todo 2 Ejemplo.db_todo).1
                error_no_encontrada) as (_ & Hu & _).
    apply (Hu "nada" Ejemplo.todo 2). reflexivity.
  - destruct (C3_failure_leaves_collection Ejemplo.db_todo
                (eliminar_nota "nada" Ejemplo.db_todo).1
                error_no_encontrada) as (_ & _ & Hd).
    apply (Hd "nada"). reflexivity.
Defined.

(** C4 at [db_dos]: renaming "Todo" to "WORK" is a Conflict, renaming it to
    "TODO" succeeds. *)
Lemma C4_update_title_check_witness :
  (∃ e, actualizar_nota "todo" Ejemplo.trabajo_mayusculas 3 Ejemplo.db_dos
          = (Ejemplo.db_dos, inl e) ∧ Conflict e) ∧
  (∃ r : Nota, actualizar_nota "todo" Ejemplo.todo_mayusculas 3 Ejemplo.db_dos
                 = (<[0%nat := r]> Ejemplo.db_dos, inr r) ∧
               base r = Ejemplo.todo_mayusculas).
Proof.
  split.
  - destruct (C4_update_title_check Ejemplo.db_dos "todo"
                Ejemplo.trabajo_mayusculas 3 0 (construir_Nota Ejemplo.todo 1 1)
                reachable_db_dos eq_refl eq_refl) as [Hconf _].
    apply (Hconf 1%nat (construir_Nota Ejemplo.trabajo 2 2));
      [lia|reflexivity|reflexivity].
  - destruct (C4_update_title_check Ejemplo.db_dos "todo"
                Ejemplo.todo_mayusculas 3 0 (construir_Nota Ejemplo.todo 1 1)
                reachable_db_dos eq_refl eq_refl) as [_ Hok].
    apply Hok. reflexivity.
Defined.

(** C5 at [db_dos], reached at time 2: PUT /notas/work at time 3. *)
Lemma C5_update_in_place_witness :
  let r := construir_Nota Ejemplo.trabajo_mayusculas 2 3 in
  actualizar_nota "work" Ejemplo.trabajo_mayusculas 3 Ejemplo.db_dos
    = ([construir_Nota Ejemplo.todo 1 1; r], inr r) ∧
  fecha_creacion r = 2 ∧ 2 ≤ fecha_actualizacion r ∧
  [construir_Nota Ejemplo.todo 1 1; r] !! 0%nat = Ejemplo.db_dos !! 0%nat.
Proof.
  intros r.
  assert (actualizar_nota "work" Ejemplo.trabajo_mayusculas 3 Ejemplo.db_dos
          = ([construir_Nota Ejemplo.todo 1 1; r], inr r)) as Hrun
    by reflexivity.
  destruct (C5_update_in_place Ejemplo.db_dos "work"
              Ejemplo.trabajo_mayusculas 3 1
              (construir_Nota Ejemplo.trabajo 2 2) _ r
              reachable_db_dos eq_refl eq_refl Hrun)
    as (_ & Hcre & _ & _ & _ & _ & Hotros & Hact).
  split_and!; [exact Hrun|exact Hcre| |].
  - apply (Hact 2 reachable_at_db_dos). lia.
  - apply (Hotros 0%nat). lia.
Defined.

(** C6 at [db_todo]: POST [trabajo], then GET /notas/Work. *)
Lemma C6_create_then_get_witness :
  ∃ nueva : Nota,
    crear_nota Ejemplo.trabajo 2 Ejemplo.db_todo
      = (Ejemplo.db_todo ++ [nueva], inr nueva) ∧
    obtener_nota "Work" (Ejemplo.db_todo ++ [nueva])
      = (Ejemplo.db_todo ++ [nueva], inr nueva) ∧
    fecha_creacion nueva = fecha_actualizacion nueva.
Proof.
  destruct (C6_create_then_get Ejemplo.db_todo Ejemplo.trabajo 2)
    as (nueva & Hc & Hg & _ & _ & _ & _ & _ & Hf).
  - intros Hb. vm_compute in Hb. discriminate.
  - intros Hb. vm_compute in Hb. discriminate.
  - intros [Hm|Hm%Exists_nil]%Exists_cons; [|done].
    vm_compute in Hm. discriminate.
  - exists nueva. split_and!; [exact Hc|exact Hg|exact Hf].
Defined.

(** C7 at [db_dos]: DELETE /notas/TODO, then GET /notas/TODO; and a DELETE
    of a title nobody holds. *)
Lemma C7_delete_removes_witness :
  (∃ resp e,
     eliminar_nota "TODO" Ejemplo.db_dos = (delete 0%nat Ejemplo.db_dos, inr resp) ∧
     nota_eliminada resp = construir_Nota Ejemplo.todo 1 1 ∧
     obtener_nota "TODO" (delete 0%nat Ejemplo.db_dos)
       = (delete 0%nat Ejemplo.db_dos, inl e) ∧ NotFound e) ∧
  (∃ e, eliminar_nota "nada" Ejemplo.db_dos = (Ejemplo.db_dos, inl e) ∧
        NotFound e).
Proof.
  destruct (C7_delete_removes Ejemplo.db_dos "TODO" reachable_db_dos)
    as [Hdel _].
  destruct (C7_delete_removes Ejemplo.db_dos "nada" reachable_db_dos)
    as [_ Hno].
  split.
  - destruct (Hdel 0%nat (construir_Nota Ejemplo.todo 1 1) eq_refl eq_refl)
      as (resp & e & He & Hn & _ & _ & Hg & Hnf).
    exists resp, e. split_and!; [exact He|exact Hn|exact Hg|exact Hnf].
  - apply Hno. intros Hocc. unfold titulo_ocupado in Hocc.
    apply Exists_cons in Hocc as [Hm|Hocc]; [vm_compute in Hm; discriminate|].
    apply Exists_cons in Hocc as [Hm|Hocc]; [vm_compute in Hm; discriminate|].
    by apply Exists_nil in Hocc.
Defined.

(** The statistics of [db_categorias]: "Work" and "work" are two keys. *)
Example estadisticas_db_categorias :
  ∃ st : Estadisticas,
    obtener_estadisticas Ejemplo.db_categorias = (Ejemplo.db_categorias, inr st) ∧
    total_notas st = 4 ∧ notas_importantes st = 2 ∧ notas_normales st = 2 ∧
    categorias st !! Some "Work" = Some 2 ∧
    categorias st !! Some "work" = Some 1 ∧
    categorias st !! Some "Personal" = Some 1 ∧
    categorias st !! Some "WORK" = None.
Proof.
  unfold obtener_estadisticas, bind, leer_db, ret.
  eexists. split; [reflexivity|]. by vm_compute.
Qed.

(** The list with the category filter "": no Note of [db_categorias] has
    that category, and all of them are returned; the filter "WORK" selects
    three. *)
Example obtener_notas_categoria_vacia :
  obtener_notas (Some "") None Ejemplo.db_categorias
    = (Ejemplo.db_categorias, inr Ejemplo.db_categorias) ∧
  ∃ l, obtener_notas (Some "WORK") None Ejemplo.db_categorias
         = (Ejemplo.db_categorias, inr l) ∧ length l = 3%nat.
Proof. split; [reflexivity|]. eexists. split; reflexivity. Qed.

(** The scenario of the specification: create "Todo", a second create of
    "TODO" is a Conflict, GET /notas/todo returns the first Note, and after
    DELETE /notas/todo the same GET is NotFound. *)
Example escenario_todo :
  crear_nota Ejemplo.todo 1 []
    = (Ejemplo.db_todo, inr (construir_Nota Ejemplo.todo 1 1)) ∧
  crear_nota Ejemplo.todo_mayusculas 2 Ejemplo.db_todo
    = (Ejemplo.db_todo, inl error_titulo_duplicado) ∧
  obtener_nota "todo" Ejemplo.db_todo
    = (Ejemplo.db_todo, inr (construir_Nota Ejemplo.todo 1 1)) ∧
  (eliminar_nota "todo" Ejemplo.db_todo).1 = [] ∧
  obtener_nota "todo" [] = ([], inl error_no_encontrada).
Proof. split_and!; reflexivity. Qed.

(** ** Further properties of the handlers *)

Section Further.
Context `{Texto}.

Lemma filtrar_categoria_ok cat (l db : list Nota) :
  Forall (λ n : Nota, is_Some (categoria n)) l →
  filtrar_categoria cat l db = (db, inr (filter (misma_categoria cat) l)).
Proof.
  induction 1 as [|n l [c Hc] _ IH]; [done|].
  cbn [filtrar_categoria]. rewrite Hc. unfold bind. rewrite IH.
  unfold ret. rewrite filter_cons.
  destruct (decide (lower c = lower cat)) as [Heq|Hne];
    [rewrite decide_True|rewrite decide_False]; try done;
    unfold misma_categoria; by rewrite Hc.
Qed.

Lemma filtrar_categoria_None cat (l db : list Nota) :
  Exists (λ n : Nota, categoria n = None) l →
  filtrar_categoria cat l db = (db, inl AttributeError).
Proof.
  induction 1 as [n l Hn|n l _ IH]; cbn [filtrar_categoria].
  - by rewrite Hn.
  - destruct (categoria n); [|done]. unfold bind. by rewrite IH.
Qed.

Lemma longitud_por_importancia (db : list Nota) :
  (length db = length (filter (λ n : Nota, importante n = Some true) db)
             + length (filter (λ n : Nota, importante n = Some false) db)
             + length (filter (λ n : Nota, importante n = None) db))%nat.
Proof.
  induction db as [|n db IH]; [done|]. rewrite !filter_cons.
  destruct (importante n) as [[]|]; simpl; lia.
Qed.

(** X1. The list filtered by importance and the statistics agree: the list
    for [importante=true] holds the Notes the statistics count as important;
    the list for [importante=false] holds the Notes whose flag is false, and
    together with the Notes whose flag is [None], which no importance filter
    returns, they are the Notes the statistics count as normal. *)
Theorem X1_importance_filter_and_statistics db :
  ∃ (si no : list Nota) (st : Estadisticas),
    obtener_notas None (Some true) db = (db, inr si) ∧
    obtener_notas None (Some false) db = (db, inr no) ∧
    obtener_estadisticas db = (db, inr st) ∧
    si = filter (λ n : Nota, importante n = Some true) db ∧
    no = filter (λ n : Nota, importante n = Some false) db ∧
    Z.of_nat (length si) = notas_importantes st ∧
    Z.of_nat (length no) + cuenta (λ n : Nota, importante n = None) db
      = notas_normales st.
Proof.
  unfold obtener_estadisticas, obtener_notas, bind, leer_db, ret.
  eexists _, _, _. split_and!; [reflexivity..| |].
  - cbn [notas_importantes]. do 2 f_equal. apply list_filter_iff.
    intros n. by destruct (importante n) as [[]|].
  - cbn [notas_normales]. unfold cuenta, filtrar_importante.
    assert (filter (λ n : Nota, truthy_bool (importante n) = true) db
            = filter (λ n : Nota, importante n = Some true) db) as ->.
    { apply list_filter_iff. intros n. by destruct (importante n) as [[]|]. }
    pose proof (longitud_por_importancia db). lia.
Qed.

(** X2. With a category filter that is not empty, and every stored Note
    having a category, the list holds, in the order of the collection, the
    Notes whose category equals the filter up to letter case, and of these
    the Notes of the requested importance when that filter is given too. *)
Theorem X2_list_by_category db cat imp :
  cat ≠ "" → Forall (λ n : Nota, is_Some (categoria n)) db →
  obtener_notas (Some cat) imp db =
    (db, inr match imp with
             | Some b => filter (λ n : Nota, importante n = Some b)
                                (filter (misma_categoria cat) db)
             | None => filter (misma_categoria cat) db
             end).
Proof.
  intros Hcat Hdb. unfold obtener_notas, bind, leer_db.
  destruct cat as [|a cat]; [done|].
  rewrite filtrar_categoria_ok by done. by destruct imp.
Qed.

(** X3. With a category filter that is not empty, a stored Note whose
    category is [None] makes the list request fail with [AttributeError],
    whatever the importance filter; the collection stays as it is. *)
Theorem X3_list_by_category_fails_on_missing_category db cat imp :
  cat ≠ "" → Exists (λ n : Nota, categoria n = None) db →
  obtener_notas (Some cat) imp db = (db, inl AttributeError).
Proof.
  intros Hcat Hdb. unfold obtener_notas, bind, leer_db.
  destruct cat as [|a cat]; [done|].
  by rewrite filtrar_categoria_None.
Qed.

(** X4. The four reading handlers (list, get, search, statistics) leave
    [notas_db] as it is, also when list or get raise. *)
Theorem X4_reads_leave_collection db cat imp t texto :
  (obtener_notas cat imp db).1 = db ∧
  (obtener_nota t db).1 = db ∧
  (buscar_notas texto db).1 = db ∧
  (obtener_estadisticas db).1 = db.
Proof.
  split_and!; [apply obtener_notas_estado| |done..].
  by rewrite obtener_nota_eq.
Qed.

(** X5. In a collection reached with a clock that does not run backwards,
    every stored Note was created no later than it was last updated, and
    last updated no later than the last request was served. *)
Theorem X5_timestamps_ordered t db (n : Nota) :
  reachable_at t db → n ∈ db →
  fecha_creacion n ≤ fecha_actualizacion n ∧ fecha_actualizacion n ≤ t.
Proof.
  intros Hat Hn. apply reachable_at_fechas_ordenadas in Hat.
  unfold fechas_ordenadas in Hat. rewrite Forall_forall in Hat. by apply Hat.
Qed.

(** X6. Every request other than a PUT with a blank title or content keeps
    the collection free of Notes with a blank title or content. *)
Theorem X6_blank_free_preserved p ahora db :
  sin_blancos db → peticion_sin_blancos p → sin_blancos (atender p ahora db).
Proof.
  unfold sin_blancos. intros Hdb Hp.
  destruct p as [cat imp|t|nota|t nu|t|texto|]; cbn [atender].
  - by rewrite obtener_notas_estado.
  - by rewrite obtener_nota_eq.
  - rewrite crear_nota_eq. repeat case_decide; try done. simpl.
    apply Forall_app. split; [done|]. by apply Forall_singleton.
  - rewrite actualizar_nota_eq.
    destruct (buscar_titulo t db) as [[i nota]|]; [|done].
    case_decide; [done|]. simpl. by apply Forall_insert.
  - rewrite eliminar_nota_eq.
    destruct (buscar_titulo t db) as [[i nota]|]; [|done].
    simpl. by apply Forall_delete.
  - done.
  - done.
Qed.

Lemma buscar_titulo_ocupado t db :
  is_Some (buscar_titulo t db) ↔ titulo_ocupado t db.
Proof.
  unfold titulo_ocupado. rewrite Exists_exists. split.
  - intros [[i n] (Hi & Hm & _)%buscar_titulo_Some].
    exists n. split; [by eapply list_elem_of_lookup_2|done].
  - intros (n & Hn & Hm).
    destruct (buscar_titulo t db) as [?|] eqn:Hb; [done|].
    rewrite buscar_titulo_None in Hb. by destruct (Hb n).
Qed.

Lemma buscar_titulo_libre t db : buscar_titulo t db = None ↔ ¬ titulo_ocupado t db.
Proof. rewrite <- buscar_titulo_ocupado, <- eq_None_not_Some. done. Qed.

(** X7. Get returns the first Note, in the order of the collection, whose
    title equals the requested one up to letter case, and fails with
    NotFound exactly when no stored title does. *)
Theorem X7_get_first_match db t :
  (∀ n : Nota,
     obtener_nota t db = (db, inr n) ↔
     ∃ i, db !! i = Some n ∧ mismo_titulo (titulo n) t ∧
          ∀ j (m : Nota), db !! j = Some m → (j < i)%nat →
                          ¬ mismo_titulo (titulo m) t) ∧
  (obtener_nota t db = (db, inl error_no_encontrada) ↔ ¬ titulo_ocupado t db).
Proof.
  rewrite obtener_nota_eq. split.
  - intros n. split.
    + destruct (buscar_titulo t db) as [[i m]|] eqn:Hb; intros [= <-].
      exists i. by apply buscar_titulo_Some.
    + intros (i & Hi). apply buscar_titulo_Some in Hi. by rewrite Hi.
  - rewrite <- buscar_titulo_libre.
    destruct (buscar_titulo t db) as [[i m]|]; split; done.
Qed.

Lemma buscar_titulo_mismo t t' db :
  mismo_titulo t t' → buscar_titulo t db = buscar_titulo t' db.
Proof.
  intros Hm. unfold buscar_titulo. apply list_find_ext.
  intros n. unfold mismo_titulo in *. by rewrite Hm.
Qed.

(** X8. Get, update and delete depend on the title of the request path only
    up to letter case, and search on its text only up to letter case: two
    titles (texts) with the same lower-case form give the same answer and
    the same collection. *)
Theorem X8_requests_up_to_case db t t' nu ahora :
  mismo_titulo t t' →
  obtener_nota t db = obtener_nota t' db ∧
  actualizar_nota t nu ahora db = actualizar_nota t' nu ahora db ∧
  eliminar_nota t db = eliminar_nota t' db ∧
  buscar_notas t db = buscar_notas t' db.
Proof.
  intros Hm. split_and!.
  - by rewrite !obtener_nota_eq, (buscar_titulo_mismo t t').
  - rewrite !actualizar_nota_eq, (buscar_titulo_mismo t t') by done.
    destruct (buscar_titulo t' db) as [[i nota]|]; [|done].
    apply decide_ext. unfold titulo_de_otra, mismo_titulo in *. by rewrite Hm.
  - by rewrite !eliminar_nota_eq, (buscar_titulo_mismo t t').
  - unfold buscar_notas, bind, leer_db, mismo_titulo in *. by rewrite Hm.
Qed.

Lemma buscar_titulo_nueva db (nueva : Nota) :
  ¬ titulo_ocupado (titulo nueva) db →
  buscar_titulo (titulo nueva) (db ++ [nueva]) = Some (length db, nueva).
Proof.
  intros Hlibre. apply buscar_titulo_Some. split_and!.
  - by rewrite lookup_app_r, Nat.sub_diag by lia.
  - done.
  - intros j otra Hj Hlt Hmj. rewrite lookup_app_l in Hj by done.
    apply Hlibre, Exists_exists. exists otra.
    split; [by eapply list_elem_of_lookup_2|done].
Qed.

(** X9. A successful create followed by a delete with the same title gives
    back the collection as it was before the create, and the delete returns
    the Note the create stored. *)
Theorem X9_create_then_delete db (nota : NotaCreate) ahora :
  ¬ en_blanco (titulo nota) → ¬ en_blanco (contenido nota) →
  ¬ titulo_ocupado (titulo nota) db →
  ∃ (nueva : Nota) (resp : RespuestaEliminar),
    crear_nota nota ahora db = (db ++ [nueva], inr nueva) ∧
    eliminar_nota (titulo nota) (db ++ [nueva]) = (db, inr resp) ∧
    nota_eliminada resp = nueva.
Proof.
  intros Ht Hc Hlibre. eexists (construir_Nota nota ahora ahora), _.
  split_and!.
  - rewrite crear_nota_eq. by rewrite !decide_False by done.
  - rewrite eliminar_nota_eq.
    pose proof (buscar_titulo_nueva db (construir_Nota nota ahora ahora) Hlibre)
      as Hb.
    change (titulo (construir_Nota nota ahora ahora)) with (titulo nota) in Hb.
    rewrite Hb. by rewrite (delete_middle db []), app_nil_r.
  - done.
Qed.

(** X10. Create succeeds exactly when title and content are not blank and
    no stored title equals the new one up to letter case; it fails with
    InvalidInput exactly when the title or the content is blank, and with
    Conflict exactly when neither is blank and a stored title collides. *)
Theorem X10_create_outcomes db (nota : NotaCreate) ahora :
  ((∃ db' n, crear_nota nota ahora db = (db', inr n)) ↔
     ¬ en_blanco (titulo nota) ∧ ¬ en_blanco (contenido nota) ∧
     ¬ titulo_ocupado (titulo nota) db) ∧
  ((∃ db' e, crear_nota nota ahora db = (db', inl e) ∧ InvalidInput e) ↔
     en_blanco (titulo nota) ∨ en_blanco (contenido nota)) ∧
  ((∃ db' e, crear_nota nota ahora db = (db', inl e) ∧ Conflict e) ↔
     ¬ en_blanco (titulo nota) ∧ ¬ en_blanco (contenido nota) ∧
     titulo_ocupado (titulo nota) db).
Proof.
  rewrite crear_nota_eq. unfold InvalidInput, Conflict.
  destruct (decide (en_blanco (titulo nota))) as [Ht|Ht];
    [|destruct (decide (en_blanco (contenido nota))) as [Hc|Hc];
      [|destruct (decide (titulo_ocupado (titulo nota) db)) as [Ho|Ho]]].
  - split_and!; split.
    + by intros (db' & n & [=]).
    + by intros (? & _).
    + intros _. by left.
    + intros _. eexists _, _. split; [done|by left].
    + by intros (db' & e & [= <- <-] & [=]).
    + by intros (? & _).
  - split_and!; split.
    + by intros (db' & n & [=]).
    + by intros (_ & ? & _).
    + intros _. by right.
    + intros _. eexists _, _. split; [done|by right].
    + by intros (db' & e & [= <- <-] & [=]).
    + by intros (_ & ? & _).
  - split_and!; split.
    + by intros (db' & n & [=]).
    + by intros (_ & _ & ?).
    + by intros (db' & e & [= <- <-] & [[=]|[=]]).
    + by intros [?|?].
    + done.
    + intros _. by eexists _, _.
  - split_and!; split.
    + done.
    + intros _. by eexists _, _.
    + by intros (db' & e & [=] & _).
    + by intros [?|?].
    + by intros (db' & e & [=] & _).
    + by intros (_ & _ & ?).
Qed.

(** X11. Update fails with NotFound exactly when no stored title equals the
    path title up to letter case; with Conflict exactly when one does and
    some stored Note that the path title does not match holds the new
    title; it succeeds in every other case, and never fails with
    InvalidInput, whatever the body. *)
Theorem X11_update_outcomes db t (nu : NotaCreate) ahora :
  ((∃ db' e, actualizar_nota t nu ahora db = (db', inl e) ∧ NotFound e) ↔
     ¬ titulo_ocupado t db) ∧
  ((∃ db' e, actualizar_nota t nu ahora db = (db', inl e) ∧ Conflict e) ↔
     titulo_ocupado t db ∧ titulo_de_otra t (titulo nu) db) ∧
  ((∃ db' r, actualizar_nota t nu ahora db = (db', inr r)) ↔
     titulo_ocupado t db ∧ ¬ titulo_de_otra t (titulo nu) db) ∧
  (∀ db' e, actualizar_nota t nu ahora db = (db', inl e) → ¬ InvalidInput e).
Proof.
  rewrite actualizar_nota_eq. unfold InvalidInput, Conflict, NotFound.
  assert (titulo_de_otra t (titulo nu) db → ¬ mismo_titulo (titulo nu) t) as Hotra.
  { unfold titulo_de_otra. rewrite Exists_exists.
    intros (n & _ & Hn & Hnt) Hm. apply Hnt.
    unfold mismo_titulo in *. congruence. }
  destruct (buscar_titulo t db) as [[i nota]|] eqn:Hb.
  - assert (titulo_ocupado t db) as Ho by (by apply buscar_titulo_ocupado).
    destruct (decide (¬ mismo_titulo (titulo nu) t ∧
                      titulo_de_otra t (titulo nu) db)) as [[_ Hd]|Hd].
    + split_and!; [split..|].
      * by intros (db' & e & [= <- <-] & [=]).
      * done.
      * done.
      * intros _. by eexists _, _.
      * by intros (db' & r & [=]).
      * by intros (_ & ?).
      * by intros db' e [= <- <-] [[=]|[=]].
    + assert (¬ titulo_de_otra t (titulo nu) db) as Hno.
      { intros Hd'. apply Hd. split; [by apply Hotra|done]. }
      split_and!; [split..|].
      * by intros (db' & e & [=] & _).
      * done.
      * by intros (db' & e & [=] & _).
      * by intros (_ & ?).
      * done.
      * intros _. by eexists _, _.
      * by intros db' e [=].
  - assert (¬ titulo_ocupado t db) as Ho by (by apply buscar_titulo_libre).
    split_and!; [split..|].
    + done.
    + intros _. by eexists _, _.
    + by intros (db' & e & [= <- <-] & [=]).
    + by intros (? & _).
    + by intros (db' & r & [=]).
    + by intros (? & _).
    + by intros db' e [= <- <-] [[=]|[=]].
Qed.

(** X12. After a successful update in a reachable collection, a get with
    the new title returns the updated Note, and, when the new title differs
    from the path title also up to letter case, a get with the path title
    fails with NotFound. *)
Theorem X12_update_then_get db t (nu : NotaCreate) ahora db' (r : Nota) :
  reachable db → actualizar_nota t nu ahora db = (db', inr r) →
  obtener_nota (titulo nu) db' = (db', inr r) ∧
  (¬ mismo_titulo (titulo nu) t →
   obtener_nota t db' = (db', inl error_no_encontrada)).
Proof.
  intros Hr Hrun.
  assert (reachable db') as Hr'.
  { replace db' with (atender (PUT_nota t nu) ahora db);
      [by constructor|]. cbn [atender]. by rewrite Hrun. }
  rewrite actualizar_nota_eq in Hrun.
  destruct (buscar_titulo t db) as [[i nota]|] eqn:Hb; [|done].
  case_decide; [done|]. injection Hrun as <- <-.
  apply buscar_titulo_Some in Hb as (Hi & Hm & _).
  set (r := construir_Nota nu (fecha_creacion nota) ahora) in *.
  assert (<[i := r]> db !! i = Some r) as Hi'.
  { apply list_lookup_insert_eq. by eapply lookup_lt_Some. }
  rewrite !obtener_nota_eq. split.
  - rewrite (buscar_titulo_unico (titulo nu) _ i r);
      [done|by apply reachable_titulos_unicos|done|done].
  - intros Hne.
    assert (buscar_titulo t (<[i := r]> db) = None) as ->; [|done].
    apply buscar_titulo_None. intros n [j Hj]%list_elem_of_lookup Hmn.
    destruct (decide (j = i)) as [->|Hji].
    + rewrite Hi' in Hj. injection Hj as <-. by apply Hne.
    + rewrite list_lookup_insert_ne in Hj by done. apply Hji.
      eapply (NoDup_lookup (clave <$> db));
        [by apply reachable_titulos_unicos|..];
        rewrite list_lookup_fmap; [rewrite Hj|rewrite Hi]; simpl; [done|].
      unfold clave, mismo_titulo in *. congruence.
Qed.

(** X13. After a successful create, every create whose title equals the
    stored one up to letter case fails and leaves the collection as it is:
    with Conflict when its title and content are not blank. *)
Theorem X13_create_twice db (nota nota2 : NotaCreate) ahora ahora2 db' (n : Nota) :
  crear_nota nota ahora db = (db', inr n) →
  mismo_titulo (titulo nota2) (titulo nota) →
  ∃ e, crear_nota nota2 ahora2 db' = (db', inl e) ∧
       (InvalidInput e ∨ Conflict e) ∧
       (¬ en_blanco (titulo nota2) → ¬ en_blanco (contenido nota2) →
        Conflict e).
Proof.
  rewrite crear_nota_eq. repeat case_decide; try done.
  intros [= <- <-] Hm. rewrite crear_nota_eq.
  assert (titulo_ocupado (titulo nota2) (db ++ [construir_Nota nota ahora ahora]))
    as Ho.
  { apply Exists_app. right. apply Exists_cons_hd.
    unfold mismo_titulo in *. simpl. congruence. }
  destruct (decide (en_blanco (titulo nota2))).
  { eexists. split_and!; [done|by left; left|done]. }
  destruct (decide (en_blanco (contenido nota2))).
  { eexists. split_and!; [done|by left; right|done]. }
  rewrite decide_True by done. eexists. split_and!; [done|by right|done].
Qed.

Lemma buscar_notas_eq texto db :
  buscar_notas texto db = (db, inr (filter (aparece_en texto) db)).
Proof.
  unfold buscar_notas, bind, leer_db, ret. do 2 f_equal.
  apply (foldl_resultados _ (aparece_en texto) db []).
  intros n. unfold coincide, aparece_en.
  by rewrite orb_true_iff, !contiene_es_subcadena.
Qed.

Lemma es_subcadena_refl a : es_subcadena a a.
Proof.
  exists "", "". change ("" +:+ a +:+ "") with (a +:+ "").
  induction a as [|c a IH]; [done|]. rewrite append_String. by f_equal.
Qed.

(** X14. A search for the title of a stored Note, or for its content,
    returns that Note; every search result is a sublist of the collection. *)
Theorem X14_search_finds_own_text db (n : Nota) texto :
  n ∈ db →
  ∃ por_titulo por_contenido resultado : list Nota,
    buscar_notas (titulo n) db = (db, inr por_titulo) ∧ n ∈ por_titulo ∧
    buscar_notas (contenido n) db = (db, inr por_contenido) ∧
    n ∈ por_contenido ∧
    buscar_notas texto db = (db, inr resultado) ∧ resultado `sublist_of` db.
Proof.
  intros Hn. eexists _, _, _. rewrite !buscar_notas_eq.
  split_and!; [done| |done| |done|apply sublist_filter].
  - apply list_elem_of_filter. split; [|done]. left. apply es_subcadena_refl.
  - apply list_elem_of_filter. split; [|done]. right. apply es_subcadena_refl.
Qed.

Lemma suma_categorias_paso (cats : gmap (option string) Z) c :
  suma_categorias (<[c := default 0 (cats !! c) + 1]> cats)
  = suma_categorias cats + 1.
Proof.
  unfold suma_categorias.
  assert (∀ (j1 j2 : option string) (z1 z2 y : Z),
            z1 + (z2 + y) = z2 + (z1 + y)) as Hcomm by (intros; lia).
  destruct (cats !! c) as [k|] eqn:Hc; cbn [default].
  - rewrite <- insert_delete_eq.
    rewrite map_fold_insert_L; [|by intros; apply Hcomm|apply lookup_delete_eq].
    rewrite (map_fold_delete_L _ _ c k cats);
      [unfold id; lia|by intros; apply Hcomm|done].
  - rewrite map_fold_insert_L; [lia|by intros; apply Hcomm|done].
Qed.

Lemma suma_categorias_foldl (db : list Nota) (acc : gmap (option string) Z) :
  suma_categorias
    (foldl (λ (cats : gmap (option string) Z) (nota : Nota),
              <[categoria nota := default 0 (cats !! categoria nota) + 1]> cats)
           acc db)
  = suma_categorias acc + Z.of_nat (length db).
Proof.
  revert acc. induction db as [|n db IH]; intros acc; cbn [foldl length].
  - lia.
  - rewrite IH, suma_categorias_paso. lia.
Qed.

(** X15. The counts of the category mapping of the statistics add up to the
    total number of Notes. *)
Theorem X15_category_counts_add_up db :
  ∃ st : Estadisticas,
    obtener_estadisticas db = (db, inr st) ∧
    suma_categorias (categorias st) = total_notas st.
Proof.
  unfold obtener_estadisticas, bind, leer_db, ret.
  eexists. split; [reflexivity|]. cbn [categorias total_notas].
  unfold contar_categorias. rewrite suma_categorias_foldl.
  unfold suma_categorias. rewrite map_fold_empty. lia.
Qed.

(** The Note a get returns is the second component of what the scan finds. *)
Lemma obtener_nota_resultado u db db2 :
  snd <$> buscar_titulo u db2 = snd <$> buscar_titulo u db →
  (obtener_nota u db2).2 = (obtener_nota u db).2.
Proof.
  rewrite !obtener_nota_eq. cbn [snd].
  destruct (buscar_titulo u db2) as [[??]|], (buscar_titulo u db) as [[??]|];
    intros [=]; by subst.
Qed.

Lemma buscar_titulo_app_otra u db (x : Nota) :
  ¬ mismo_titulo (titulo x) u →
  snd <$> buscar_titulo u (db ++ [x]) = snd <$> buscar_titulo u db.
Proof.
  intros Hx. unfold buscar_titulo. induction db as [|n db IH]; cbn.
  - by rewrite decide_False.
  - destruct (decide (mismo_titulo (titulo n) u)); [done|].
    rewrite <- !option_fmap_compose.
    destruct (list_find _ (db ++ [x])) as [[??]|], (list_find _ db) as [[??]|];
      cbn in *; congruence.
Qed.

Lemma buscar_titulo_delete_otra u db i (x : Nota) :
  db !! i = Some x → ¬ mismo_titulo (titulo x) u →
  snd <$> buscar_titulo u (delete i db) = snd <$> buscar_titulo u db.
Proof.
  intros Hi Hx. unfold buscar_titulo.
  revert i Hi. induction db as [|n db IH]; intros [|i] Hi; try done; cbn.
  - injection Hi as ->. rewrite decide_False by done.
    rewrite <- option_fmap_compose. by destruct (list_find _ db) as [[??]|].
  - destruct (decide (mismo_titulo (titulo n) u)); [done|].
    rewrite <- !option_fmap_compose. specialize (IH i Hi).
    destruct (list_find _ (delete i db)) as [[??]|], (list_find _ db) as [[??]|];
      cbn in *; congruence.
Qed.

Lemma buscar_titulo_insert_otra u db i (x y : Nota) :
  db !! i = Some x → ¬ mismo_titulo (titulo x) u → ¬ mismo_titulo (titulo y) u →
  snd <$> buscar_titulo u (<[i := y]> db) = snd <$> buscar_titulo u db.
Proof.
  intros Hi Hx Hy. unfold buscar_titulo.
  revert i Hi. induction db as [|n db IH]; intros [|i] Hi; try done; cbn.
  - injection Hi as ->. by rewrite !decide_False by done.
  - destruct (decide (mismo_titulo (titulo n) u)); [done|].
    rewrite <- !option_fmap_compose. specialize (IH i Hi).
    destruct (list_find _ (<[i := y]> db)) as [[??]|],
             (list_find _ db) as [[??]|]; cbn in *; congruence.
Qed.

(** X16. A successful create, update or delete does not change what a get
    answers for a title [u] that differs, also up to letter case, from the
    titles involved: the created title, the path title and the new title of
    the update, the path title of the delete. *)
Theorem X16_other_titles_unaffected db u :
  (∀ (nota : NotaCreate) ahora db' (n : Nota),
     crear_nota nota ahora db = (db', inr n) →
     ¬ mismo_titulo (titulo nota) u →
     (obtener_nota u db').2 = (obtener_nota u db).2) ∧
  (∀ t (nu : NotaCreate) ahora db' (r : Nota),
     actualizar_nota t nu ahora db = (db', inr r) →
     ¬ mismo_titulo t u → ¬ mismo_titulo (titulo nu) u →
     (obtener_nota u db').2 = (obtener_nota u db).2) ∧
  (∀ t db' (resp : RespuestaEliminar),
     eliminar_nota t db = (db', inr resp) →
     ¬ mismo_titulo t u →
     (obtener_nota u db').2 = (obtener_nota u db).2).
Proof.
  split_and!.
  - intros nota ahora db' n. rewrite crear_nota_eq.
    repeat case_decide; try done. intros [= <- <-] Hne.
    by apply obtener_nota_resultado, buscar_titulo_app_otra.
  - intros t nu ahora db' r. rewrite actualizar_nota_eq.
    destruct (buscar_titulo t db) as [[i nota]|] eqn:Hb; [|done].
    case_decide; [done|]. intros [= <- <-] Htu Hnu.
    apply buscar_titulo_Some in Hb as (Hi & Hm & _).
    apply obtener_nota_resultado, (buscar_titulo_insert_otra u db i nota);
      [done| |done].
    intros Hmu. apply Htu. unfold mismo_titulo in *. congruence.
  - intros t db' resp. rewrite eliminar_nota_eq.
    destruct (buscar_titulo t db) as [[i nota]|] eqn:Hb; [|done].
    intros [= <- <-] Htu.
    apply buscar_titulo_Some in Hb as (Hi & Hm & _).
    apply obtener_nota_resultado, (buscar_titulo_delete_otra u db i nota);
      [done|].
    intros Hmu. apply Htu. unfold mismo_titulo in *. congruence.
Qed.

(** X17. A successful create makes the collection one Note longer, a
    successful delete one Note shorter, and an update, successful or not,
    keeps its length. *)
Theorem X17_collection_size db :
  (∀ (nota : NotaCreate) ahora db' (n : Nota),
     crear_nota nota ahora db = (db', inr n) → length db' = S (length db)) ∧
  (∀ t (nu : NotaCreate) ahora,
     length (actualizar_nota t nu ahora db).1 = length db) ∧
  (∀ t db' (resp : RespuestaEliminar),
     eliminar_nota t db = (db', inr resp) → S (length db') = length db).
Proof.
  split_and!.
  - intros nota ahora db' n. rewrite crear_nota_eq.
    repeat case_decide; try done. intros [= <- <-].
    rewrite length_app. simpl. lia.
  - intros t nu ahora. rewrite actualizar_nota_eq.
    destruct (buscar_titulo t db) as [[i nota]|]; [|done].
    case_decide; [done|]. apply length_insert.
  - intros t db' resp. rewrite eliminar_nota_eq.
    destruct (buscar_titulo t db) as [[i nota]|] eqn:Hb; [|done].
    intros [= <- <-]. apply buscar_titulo_Some in Hb as (Hi & _).
    rewrite length_delete by done. apply lookup_lt_Some in Hi. lia.
Qed.

(** In a collection with unique titles, removing the Note matched by [t]
    leaves no Note matched by [t]. *)
Lemma eliminar_libera_titulo db t i (nota : Nota) :
  titulos_unicos db → buscar_titulo t db = Some (i, nota) →
  ¬ titulo_ocupado t (delete i db).
Proof.
  intros Hnd (Hi & Hm & _)%buscar_titulo_Some.
  unfold titulo_ocupado. rewrite Exists_exists.
  intros (n & [j Hj]%list_elem_of_lookup & Hmn).
  assert (clave n = clave nota) as Hk.
  { unfold clave, mismo_titulo in *. congruence. }
  assert (∀ k, db !! k = Some n → k = i) as Huniq.
  { intros k Hk'. eapply (NoDup_lookup (clave <$> db)); [exact Hnd|..];
      rewrite list_lookup_fmap; [rewrite Hk'|rewrite Hi]; simpl; [done|].
    by rewrite Hk. }
  destruct (decide (j < i)%nat) as [Hlt|Hge].
  - rewrite list_lookup_delete_lt in Hj by done. apply Huniq in Hj. lia.
  - rewrite list_lookup_delete_ge in Hj by lia. apply Huniq in Hj. lia.
Qed.

(** X18. After a successful delete in a reachable collection the title is
    free again: a second delete with that title fails with NotFound, and a
    create with that title, up to letter case, and title and content that
    are not blank succeeds. *)
Theorem X18_deleted_title_is_free db t db' (resp : RespuestaEliminar)
    (nota : NotaCreate) ahora :
  reachable db → eliminar_nota t db = (db', inr resp) →
  mismo_titulo (titulo nota) t →
  ¬ en_blanco (titulo nota) → ¬ en_blanco (contenido nota) →
  eliminar_nota t db' = (db', inl error_no_encontrada) ∧
  ∃ nueva : Nota,
    crear_nota nota ahora db' = (db' ++ [nueva], inr nueva) ∧ base nueva = nota.
Proof.
  intros Hr Hrun Hm Ht Hc. rewrite eliminar_nota_eq in Hrun.
  destruct (buscar_titulo t db) as [[i vieja]|] eqn:Hb; [|done].
  injection Hrun as <- <-.
  pose proof (eliminar_libera_titulo db t i vieja
                (reachable_titulos_unicos _ Hr) Hb) as Hlibre.
  split.
  - rewrite eliminar_nota_eq.
    by rewrite (proj2 (buscar_titulo_libre t (delete i db)) Hlibre).
  - exists (construir_Nota nota ahora ahora). split; [|by destruct nota].
    rewrite crear_nota_eq. rewrite !decide_False; [done| |done..].
    intros Ho. apply Hlibre. unfold titulo_ocupado in *.
    eapply Exists_impl; [exact Ho|]. intros n Hn.
    unfold mismo_titulo in *. congruence.
Qed.

(** X19. After a successful create the statistics count one Note more in
    total, one more for the category of the new Note and as many as before
    for every other category, and one more important Note exactly when the
    flag of the new Note is true. *)
Theorem X19_statistics_after_create db (nota : NotaCreate) ahora db' (n : Nota)
    (st st' : Estadisticas) :
  crear_nota nota ahora db = (db', inr n) →
  obtener_estadisticas db = (db, inr st) →
  obtener_estadisticas db' = (db', inr st') →
  total_notas st' = total_notas st + 1 ∧
  notas_importantes st' =
    notas_importantes st + (if truthy_bool (importante nota) then 1 else 0) ∧
  categorias st' !! categoria nota =
    Some (default 0 (categorias st !! categoria nota) + 1) ∧
  ∀ c, c ≠ categoria nota → categorias st' !! c = categorias st !! c.
Proof.
  rewrite crear_nota_eq. repeat case_decide; try done. intros [= <- <-].
  unfold obtener_estadisticas, bind, leer_db, ret. intros [= <-] [= <-].
  cbn [total_notas notas_importantes categorias].
  unfold contar_categorias. rewrite foldl_app, filter_app, !length_app.
  cbn [foldl]. split_and!.
  - simpl. lia.
  - rewrite filter_cons. simpl.
    destruct (importante nota) as [[]|]; simpl; lia.
  - apply lookup_insert_eq.
  - intros c Hc. by apply lookup_insert_ne.
Qed.

Lemma length_filter_impl (P Q : Nota → Prop)
    `{∀ n, Decision (P n)} `{∀ n, Decision (Q n)} (db : list Nota) :
  (∀ n, P n → Q n) → (length (filter P db) ≤ length (filter Q db))%nat.
Proof.
  intros HPQ. induction db as [|n db IH]; [done|]. rewrite !filter_cons.
  destruct (decide (P n)) as [HP|HP].
  - rewrite decide_True by auto. simpl. lia.
  - destruct (decide (Q n)); simpl; lia.
Qed.

(** X20. The list compares categories up to letter case, the statistics
    count them as stored: when every stored Note has a category, the list
    for a category that is not empty holds at least as many Notes as the
    statistics count under that very key. *)
Theorem X20_category_list_covers_statistics_key db cat :
  cat ≠ "" → Forall (λ n : Nota, is_Some (categoria n)) db →
  ∃ (l : list Nota) (st : Estadisticas),
    obtener_notas (Some cat) None db = (db, inr l) ∧
    obtener_estadisticas db = (db, inr st) ∧
    default 0 (categorias st !! Some cat) ≤ Z.of_nat (length l).
Proof.
  intros Hcat Hdb. unfold obtener_estadisticas, obtener_notas, bind, leer_db.
  destruct cat as [|a cat]; [done|].
  rewrite filtrar_categoria_ok by done. unfold ret.
  eexists _, _. split_and!; [reflexivity..|].
  cbn [categorias]. unfold contar_categorias.
  rewrite foldl_categorias, lookup_empty. unfold cuenta. cbn [default].
  pose proof (length_filter_impl
                (λ n : Nota, categoria n = Some (String a cat))
                (misma_categoria (String a cat)) db) as Hle.
  assert (length (filter (λ n : Nota, categoria n = Some (String a cat)) db)
          ≤ length (filter (misma_categoria (String a cat)) db))%nat as Hlen.
  { apply Hle. intros n Hn. unfold misma_categoria. by rewrite Hn. }
  case_decide; cbn [default]; unfold id; lia.
Qed.

End Further.

(** ** The further properties on concrete requests *)

Lemma sin_blancos_db_todo : sin_blancos Ejemplo.db_todo.
Proof.
  apply Forall_singleton. split; intros Hb; vm_compute in Hb; discriminate.
Qed.

(** X2 at [db_dos]: the category "OFFICE" and [importante=true]. *)
Lemma X2_list_by_category_witness :
  obtener_notas (Some "OFFICE") (Some true) Ejemplo.db_dos
    = (Ejemplo.db_dos, inr [construir_Nota Ejemplo.trabajo 2 2]).
Proof.
  etrans; [apply (X2_list_by_category Ejemplo.db_dos "OFFICE" (Some true))|].
  - discriminate.
  - repeat constructor; eexists; reflexivity.
  - vm_compute. reflexivity.
Defined.

(** X3 at [db_sin_categoria], whose third Note has no category. *)
Lemma X3_list_by_category_fails_on_missing_category_witness :
  obtener_notas (Some "office") None Ejemplo.db_sin_categoria
    = (Ejemplo.db_sin_categoria, inl AttributeError).
Proof.
  apply (X3_list_by_category_fails_on_missing_category
           Ejemplo.db_sin_categoria "office" None).
  - discriminate.
  - apply Exists_cons_tl, Exists_cons_tl, Exists_cons_hd. reflexivity.
Defined.

(** X5 at [db_dos], reached at time 2. *)
Lemma X5_timestamps_ordered_witness :
  fecha_creacion (construir_Nota Ejemplo.trabajo 2 2)
    ≤ fecha_actualizacion (construir_Nota Ejemplo.trabajo 2 2) ∧
  fecha_actualizacion (construir_Nota Ejemplo.trabajo 2 2) ≤ 2.
Proof.
  apply (X5_timestamps_ordered 2 Ejemplo.db_dos).
  - apply reachable_at_db_dos.
  - apply list_elem_of_lookup. exists 1%nat. reflexivity.
Defined.

(** X6 at [db_todo]: POST [trabajo]. *)
Lemma X6_blank_free_preserved_witness : sin_blancos Ejemplo.db_dos.
Proof.
  apply (X6_blank_free_preserved (POST_notas Ejemplo.trabajo) 2 Ejemplo.db_todo).
  - apply sin_blancos_db_todo.
  - exact I.
Defined.

(** X8 at [db_dos]: the titles "TODO" and "todo". *)
Lemma X8_requests_up_to_case_witness :
  obtener_nota "TODO" Ejemplo.db_dos = obtener_nota "todo" Ejemplo.db_dos ∧
  actualizar_nota "TODO" Ejemplo.tareas 3 Ejemplo.db_dos
    = actualizar_nota "todo" Ejemplo.tareas 3 Ejemplo.db_dos ∧
  eliminar_nota "TODO" Ejemplo.db_dos = eliminar_nota "todo" Ejemplo.db_dos ∧
  buscar_notas "TODO" Ejemplo.db_dos = buscar_notas "todo" Ejemplo.db_dos.
Proof.
  apply (X8_requests_up_to_case Ejemplo.db_dos "TODO" "todo"). reflexivity.
Defined.

(** X9 at [db_todo]: POST [trabajo], then DELETE /notas/Work. *)
Lemma X9_create_then_delete_witness :
  ∃ (nueva : Nota) (resp : RespuestaEliminar),
    crear_nota Ejemplo.trabajo 2 Ejemplo.db_todo
      = (Ejemplo.db_todo ++ [nueva], inr nueva) ∧
    eliminar_nota "Work" (Ejemplo.db_todo ++ [nueva])
      = (Ejemplo.db_todo, inr resp) ∧
    nota_eliminada resp = nueva.
Proof.
  apply (X9_create_then_delete Ejemplo.db_todo Ejemplo.trabajo 2).
  - intros Hb. vm_compute in Hb. discriminate.
  - intros Hb. vm_compute in Hb. discriminate.
  - intros [Hm|Hm%Exists_nil]%Exists_cons; [|done].
    vm_compute in Hm. discriminate.
Defined.

(** X12 at [db_dos]: PUT /notas/todo renames the Note to "Chores". *)
Lemma X12_update_then_get_witness :
  let r := construir_Nota Ejemplo.tareas 1 3 in
  let db' := [r; construir_Nota Ejemplo.trabajo 2 2] in
  obtener_nota "Chores" db' = (db', inr r) ∧
  obtener_nota "todo" db' = (db', inl error_no_encontrada).
Proof.
  intros r db'.
  destruct (X12_update_then_get Ejemplo.db_dos "todo" Ejemplo.tareas 3 db' r
              reachable_db_dos eq_refl) as [Hnuevo Hviejo].
  split; [exact Hnuevo|]. apply Hviejo.
  intros Hm. vm_compute in Hm. discriminate.
Defined.

(** X13 at the empty collection: POST [todo], then POST "TODO". *)
Lemma X13_create_twice_witness :
  ∃ e, crear_nota Ejemplo.todo_mayusculas 2 Ejemplo.db_todo
         = (Ejemplo.db_todo, inl e) ∧ Conflict e.
Proof.
  destruct (X13_create_twice (H := TextoASCII) [] Ejemplo.todo
              Ejemplo.todo_mayusculas 1 2
              Ejemplo.db_todo (construir_Nota Ejemplo.todo 1 1)
              eq_refl eq_refl) as (e & He & _ & Hconf).
  exists e. split; [exact He|].
  apply Hconf; intros Hb; vm_compute in Hb; discriminate.
Defined.

(** X14 at [db_dos]: the Note "Todo" and the text "report". *)
Lemma X14_search_finds_own_text_witness :
  ∃ por_titulo por_contenido resultado : list Nota,
    buscar_notas "Todo" Ejemplo.db_dos = (Ejemplo.db_dos, inr por_titulo) ∧
    construir_Nota Ejemplo.todo 1 1 ∈ por_titulo ∧
    buscar_notas "Buy milk" Ejemplo.db_dos = (Ejemplo.db_dos, inr por_contenido) ∧
    construir_Nota Ejemplo.todo 1 1 ∈ por_contenido ∧
    buscar_notas "report" Ejemplo.db_dos = (Ejemplo.db_dos, inr resultado) ∧
    resultado `sublist_of` Ejemplo.db_dos.
Proof.
  apply (X14_search_finds_own_text Ejemplo.db_dos
           (construir_Nota Ejemplo.todo 1 1) "report").
  apply list_elem_of_lookup. exists 0%nat. reflexivity.
Defined.

(** X16 at [db_dos] and the title "work": POST [tareas], PUT /notas/todo
    with [tareas], DELETE /notas/todo. *)
Lemma X16_other_titles_unaffected_witness :
  (obtener_nota "work" (Ejemplo.db_dos ++ [construir_Nota Ejemplo.tareas 3 3])).2
    = (obtener_nota "work" Ejemplo.db_dos).2 ∧
  (obtener_nota "work" (<[0%nat := construir_Nota Ejemplo.tareas 1 3]> Ejemplo.db_dos)).2
    = (obtener_nota "work" Ejemplo.db_dos).2 ∧
  (obtener_nota "work" (delete 0%nat Ejemplo.db_dos)).2
    = (obtener_nota "work" Ejemplo.db_dos).2.
Proof.
  destruct (X16_other_titles_unaffected Ejemplo.db_dos "work")
    as (Hcrear & Hactualizar & Heliminar).
  split_and!.
  - apply (Hcrear Ejemplo.tareas 3 _ (construir_Nota Ejemplo.tareas 3 3));
      [reflexivity|]. intros Hm. vm_compute in Hm. discriminate.
  - apply (Hactualizar "todo" Ejemplo.tareas 3 _
             (construir_Nota Ejemplo.tareas 1 3)); [reflexivity|..];
      intros Hm; vm_compute in Hm; discriminate.
  - apply (Heliminar "todo" _
             {| mensaje := "Nota eliminada exitosamente";
                nota_eliminada := construir_Nota Ejemplo.todo 1 1 |});
      [reflexivity|]. intros Hm. vm_compute in Hm. discriminate.
Defined.

(** X17 at [db_todo] and [db_dos]: POST [trabajo], DELETE /notas/work. *)
Lemma X17_collection_size_witness :
  length Ejemplo.db_dos = S (length Ejemplo.db_todo) ∧
  S (length (delete 1%nat Ejemplo.db_dos)) = length Ejemplo.db_dos.
Proof.
  split.
  - destruct (X17_collection_size Ejemplo.db_todo) as (Hcrear & _ & _).
    apply (Hcrear Ejemplo.trabajo 2 _ (construir_Nota Ejemplo.trabajo 2 2)).
    reflexivity.
  - destruct (X17_collection_size Ejemplo.db_dos) as (_ & _ & Heliminar).
    apply (Heliminar "work" _
             {| mensaje := "Nota eliminada exitosamente";
                nota_eliminada := construir_Nota Ejemplo.trabajo 2 2 |}).
    reflexivity.
Defined.

(** X18 at [db_dos]: DELETE /notas/TODO, then the same DELETE again and a
    POST of "TODO". *)
Lemma X18_deleted_title_is_free_witness :
  let db' := delete 0%nat Ejemplo.db_dos in
  eliminar_nota "TODO" db' = (db', inl error_no_encontrada) ∧
  ∃ nueva : Nota,
    crear_nota Ejemplo.todo_mayusculas 3 db' = (db' ++ [nueva], inr nueva) ∧
    base nueva = Ejemplo.todo_mayusculas.
Proof.
  intros db'.
  apply (X18_deleted_title_is_free Ejemplo.db_dos "TODO" db'
           {| mensaje := "Nota eliminada exitosamente";
              nota_eliminada := construir_Nota Ejemplo.todo 1 1 |}
           Ejemplo.todo_mayusculas 3 reachable_db_dos eq_refl eq_refl);
    intros Hb; vm_compute in Hb; discriminate.
Defined.

Lemma obtener_estadisticas_eq db :
  obtener_estadisticas db =
    (db, inr {| total_notas := Z.of_nat (length db);
                notas_importantes :=
                  Z.of_nat (length (filter
                    (λ n : Nota, truthy_bool (importante n) = true) db));
                notas_normales :=
                  Z.of_nat (length db)
                  - Z.of_nat (length (filter
                      (λ n : Nota, truthy_bool (importante n) = true) db));
                categorias := contar_categorias db |}).
Proof. reflexivity. Qed.

(** X19 at [db_todo]: the statistics before and after POST [trabajo]. *)
Lemma X19_statistics_after_create_witness :
  ∃ st st' : Estadisticas,
    obtener_estadisticas Ejemplo.db_todo = (Ejemplo.db_todo, inr st) ∧
    obtener_estadisticas Ejemplo.db_dos = (Ejemplo.db_dos, inr st') ∧
    total_notas st' = total_notas st + 1 ∧
    notas_importantes st' = notas_importantes st + 1 ∧
    categorias st' !! Some "Office" = Some 1 ∧
    categorias st' !! Some "General" = categorias st !! Some "General".
Proof.
  pose proof (obtener_estadisticas_eq Ejemplo.db_todo) as Hst.
  pose proof (obtener_estadisticas_eq Ejemplo.db_dos) as Hst'.
  destruct (X19_statistics_after_create (H := TextoASCII)
              Ejemplo.db_todo Ejemplo.trabajo 2
              Ejemplo.db_dos (construir_Nota Ejemplo.trabajo 2 2) _ _
              eq_refl Hst Hst') as (Htotal & Himp & Hcat & Hotras).
  eexists _, _.
  split_and!; [exact Hst|exact Hst'|exact Htotal|exact Himp| |].
  - etrans; [exact Hcat|]. vm_compute. reflexivity.
  - apply Hotras. discriminate.
Defined.

(** X20 at [db_categorias]: three Notes are listed for "work", one is
    counted under the key "work". *)
Lemma X20_category_list_covers_statistics_key_witness :
  ∃ (l : list Nota) (st : Estadisticas),
    obtener_notas (Some "work") None Ejemplo.db_categorias
      = (Ejemplo.db_categorias, inr l) ∧
    obtener_estadisticas Ejemplo.db_categorias
      = (Ejemplo.db_categorias, inr st) ∧
    default 0 (categorias st !! Some "work") ≤ Z.of_nat (length l).
Proof.
  apply (X20_category_list_covers_statistics_key Ejemplo.db_categorias "work").
  - discriminate.
  - repeat constructor; eexists; reflexivity.
Defined.
